(** * CAP_FPT: the change-detection and supervised-refresh loop

    A shallow embedding of the orchestration core of the repository
    (directory [API_CAP]):

    - [check_mongo_changes.py], the Change Detector (module [Detector]);
    - [get_mongo_data.py], the Data Refresher (module [Refresher]);
    - [main.py], the Supervisor (module [Supervisor]);
    - [get_latest_csv] of [API.py], the snapshot selection (module [Api]),

    together with the library functions they rely on: Python's string
    methods (module [Py]), [hashlib.md5] (module [MD5]) and
    [json.dumps(..., sort_keys=True)] (module [Json]).

    Conventions.  A Python [str] is a Rocq [string] whose characters stand
    for the code points of the same number (so the strings of the model
    range over the code points 0..255).  Logging calls are kept only where a
    property observes them (the Data Refresher's per-database reports).
    Definitions come first, the lemmas and theorems follow. *)

From Stdlib Require Import ZArith String Ascii List Bool Lia DecimalString.
From stdpp Require Import gmap strings list sorting.

Set Warnings "-register-all".

Open Scope string_scope.
Open Scope Z_scope.

(* ===================================================================== *)
(** * Part I: definitions                                                 *)
(* ===================================================================== *)

(** ** Python values shared by the scripts *)

Module Py.

(** The line feed that [print] appends. *)
Definition LF : ascii := "010"%char.

Definition code (c : ascii) : Z := Z.of_N (N_of_ascii c).

(** [str.isspace] on one code point below 256. *)
Definition isspace (c : ascii) : bool :=
  let n := code c in
  ((9 <=? n) && (n <=? 13)) || ((28 <=? n) && (n <=? 32))
  || (n =? 133) || (n =? 160).

Fixpoint lstrip (s : string) : string :=
  match s with
  | String c t => if isspace c then lstrip t else s
  | EmptyString => EmptyString
  end.

Fixpoint rstrip (s : string) : string :=
  match s with
  | String c t =>
      match rstrip t with
      | EmptyString => if isspace c then EmptyString else String c EmptyString
      | t' => String c t'
      end
  | EmptyString => EmptyString
  end.

(** [s.strip()] *)
Definition strip (s : string) : string := rstrip (lstrip s).

(** [s.startswith(p)] *)
Definition startswith (s p : string) : bool := String.prefix p s.

(** [s.endswith(p)] *)
Definition endswith (s p : string) : bool :=
  let n := String.length s in
  let m := String.length p in
  (m <=? n)%nat && String.eqb (String.substring (n - m) m s) p.

(** [needle in hay] for two strings. *)
Fixpoint contains (needle hay : string) : bool :=
  String.prefix needle hay ||
  match hay with
  | String _ t => contains needle t
  | EmptyString => false
  end.

(** [sep.join(parts)] *)
Fixpoint join (sep : string) (parts : list string) : string :=
  match parts with
  | [] => ""
  | [p] => p
  | p :: rest => p ++ sep ++ join sep rest
  end.

(** [s.upper()] on the ASCII letters; a string holding any other letter
    is outside ["BB"; "UD"] before and after the conversion, which is all
    [API.py] asks of it. *)
Definition upper_char (c : ascii) : ascii :=
  let n := code c in
  if (97 <=? n) && (n <=? 122) then ascii_of_N (Z.to_N (n - 32)) else c.

Fixpoint upper (s : string) : string :=
  match s with
  | String c t => String (upper_char c) (upper t)
  | EmptyString => EmptyString
  end.

(** The order of [str]: lexicographic on code points. *)
Definition str_le (a b : string) : Prop := String.leb a b = true.

#[global] Instance str_le_dec a b : Decision (str_le a b).
Proof. unfold str_le. apply _. Defined.

(** [sorted(l)] on strings. *)
Definition sorted (l : list string) : list string := merge_sort str_le l.

(** [sorted(l, reverse=True)] on strings: equal strings are
    indistinguishable, so this is the ascending result reversed. *)
Definition sorted_reverse (l : list string) : list string := rev (sorted l).

(** [os.path.join(a, b)] (POSIX): an absolute [b] replaces [a], and no
    separator is added after an empty [a] or after one that ends with the
    separator. *)
Definition path_join (a b : string) : string :=
  if startswith b "/" then b
  else if String.eqb a "" || endswith a "/" then a ++ b
  else a ++ "/" ++ b.

(** [str(n)] of an integer. *)
Definition str_of_Z (n : Z) : string := NilZero.string_of_int (Z.to_int n).

End Py.

(** ** hashlib.md5 (RFC 1321) *)

Module MD5.

Definition w32 (x : Z) : Z := x mod 2 ^ 32.

Definition rotl32 (x c : Z) : Z :=
  Z.lor (w32 (Z.shiftl x c)) (Z.shiftr x (32 - c)).

Definition not32 (x : Z) : Z := Z.lxor x 4294967295.

Definition S : list Z :=
  [ 7; 12; 17; 22;  7; 12; 17; 22;  7; 12; 17; 22;  7; 12; 17; 22;
    5;  9; 14; 20;  5;  9; 14; 20;  5;  9; 14; 20;  5;  9; 14; 20;
    4; 11; 16; 23;  4; 11; 16; 23;  4; 11; 16; 23;  4; 11; 16; 23;
    6; 10; 15; 21;  6; 10; 15; 21;  6; 10; 15; 21;  6; 10; 15; 21 ].

(** [K i = floor (2^32 * abs (sin (i + 1)))] *)
Definition K : list Z :=
  [ 3614090360; 3905402710; 606105819; 3250441966;
    4118548399; 1200080426; 2821735955; 4249261313;
    1770035416; 2336552879; 4294925233; 2304563134;
    1804603682; 4254626195; 2792965006; 1236535329;
    4129170786; 3225465664; 643717713; 3921069994;
    3593408605; 38016083; 3634488961; 3889429448;
    568446438; 3275163606; 4107603335; 1163531501;
    2850285829; 4243563512; 1735328473; 2368359562;
    4294588738; 2272392833; 1839030562; 4259657740;
    2763975236; 1272893353; 4139469664; 3200236656;
    681279174; 3936430074; 3572445317; 76029189;
    3654602809; 3873151461; 530742520; 3299628645;
    4096336452; 1126891415; 2878612391; 4237533241;
    1700485571; 2399980690; 4293915773; 2240044497;
    1873313359; 4264355552; 2734768916; 1309151649;
    4149444226; 3174756917; 718787259; 3951481745 ].

Record state := State { sA : Z; sB : Z; sC : Z; sD : Z }.

Definition init : state :=
  State 1732584193 4023233417 2562383102 271733878.

(** One of the 64 operations on a block [M] of sixteen words. *)
Definition step (M : list Z) (st : state) (i : nat) : state :=
  let '(State a b c d) := st in
  let iz := Z.of_nat i in
  let '(f, g) :=
    if iz <? 16 then
      (Z.lor (Z.land b c) (Z.land (not32 b) d), iz)
    else if iz <? 32 then
      (Z.lor (Z.land d b) (Z.land (not32 d) c), (5 * iz + 1) mod 16)
    else if iz <? 48 then
      (Z.lxor (Z.lxor b c) d, (3 * iz + 5) mod 16)
    else
      (Z.lxor c (Z.lor b (not32 d)), (7 * iz) mod 16) in
  let f' := w32 (f + a + nth i K 0 + nth (Z.to_nat g) M 0) in
  State d (w32 (b + rotl32 f' (nth i S 0))) b c.

Definition process_block (st : state) (M : list Z) : state :=
  let st' := fold_left (step M) (seq 0 64) st in
  State (w32 (sA st + sA st')) (w32 (sB st + sB st'))
        (w32 (sC st + sC st')) (w32 (sD st + sD st')).

(** Little-endian bytes of a word, and back. *)
Fixpoint le_bytes (n : nat) (x : Z) : list Z :=
  match n with
  | O => []
  | Datatypes.S n' => x mod 256 :: le_bytes n' (x / 256)
  end.

Fixpoint le_word (bs : list Z) : Z :=
  match bs with
  | [] => 0
  | b :: rest => b + 256 * le_word rest
  end.

(** Padding: one bit, zeros up to 56 modulo 64, the bit length on 64 bits. *)
Definition pad (msg : list Z) : list Z :=
  let len := Z.of_nat (length msg) in
  msg ++ [128] ++ repeat 0 (Z.to_nat ((55 - len) mod 64))
      ++ le_bytes 8 ((8 * len) mod 2 ^ 64).

(** The words of the padded message, sixteen per block. *)
Fixpoint words (fuel : nat) (bs : list Z) : list Z :=
  match fuel, bs with
  | Datatypes.S fuel', _ :: _ => le_word (take 4 bs) :: words fuel' (drop 4 bs)
  | _, _ => []
  end.

Fixpoint blocks (fuel : nat) (ws : list Z) : list (list Z) :=
  match fuel, ws with
  | Datatypes.S fuel', _ :: _ => take 16 ws :: blocks fuel' (drop 16 ws)
  | _, _ => []
  end.

Definition digest (msg : list Z) : list Z :=
  let bs := pad msg in
  let ws := words (length bs) bs in
  let st := fold_left process_block (blocks (length ws) ws) init in
  le_bytes 4 (sA st) ++ le_bytes 4 (sB st)
    ++ le_bytes 4 (sC st) ++ le_bytes 4 (sD st).

Definition hex_digit (n : Z) : ascii :=
  nth (Z.to_nat (n mod 16))
      (list_ascii_of_string "0123456789abcdef") "0"%char.

Definition hex_byte (b : Z) : list ascii := [hex_digit (b / 16); hex_digit b].

(** [str.encode()]: UTF-8 of code points below 256. *)
Definition encode (s : string) : list Z :=
  flat_map (fun c => let n := Py.code c in
                     if n <? 128 then [n]
                     else [Z.lor 192 (Z.shiftr n 6); Z.lor 128 (Z.land n 63)])
           (list_ascii_of_string s).

(** [hashlib.md5(b).hexdigest()] *)
Definition hexdigest (msg : list Z) : string :=
  string_of_list_ascii (flat_map hex_byte (digest msg)).

End MD5.

(** ** Exceptions and effects

    Every script is sequential code over some state: files, the standard
    output, the trace of what it did to its environment.  [M St A] is a
    computation that returns an [A] or raises, and leaves a state behind in
    both cases. *)

Inductive exn :=
| KeyboardInterrupt            (* not an [Exception] *)
| SystemExit (status : Z)      (* not an [Exception] *)
| TimeoutExpired               (* [subprocess.TimeoutExpired] *)
| Error (what : string).       (* any other subclass of [Exception] *)

Inductive result (A : Type) :=
| Ok (a : A)
| Raise (e : exn).
Arguments Ok {A} a.
Arguments Raise {A} e.

(** [except Exception] *)
Definition is_Exception (e : exn) : bool :=
  match e with
  | KeyboardInterrupt | SystemExit _ => false
  | TimeoutExpired | Error _ => true
  end.

(** [except subprocess.TimeoutExpired] *)
Definition is_TimeoutExpired (e : exn) : bool :=
  match e with TimeoutExpired => true | _ => false end.

(** [except KeyboardInterrupt] *)
Definition is_KeyboardInterrupt (e : exn) : bool :=
  match e with KeyboardInterrupt => true | _ => false end.

Definition M (St A : Type) : Type := St -> result A * St.

Definition ret {St A} (a : A) : M St A := fun s => (Ok a, s).

Definition raise {St A} (e : exn) : M St A := fun s => (Raise e, s).

Definition bind {St A B} (m : M St A) (k : A -> M St B) : M St B :=
  fun s => match m s with
           | (Ok a, s') => k a s'
           | (Raise e, s') => (Raise e, s')
           end.

(** [try: body  except <handles>: handler] *)
Definition try_except {St A} (body : M St A) (handles : exn -> bool)
    (handler : exn -> M St A) : M St A :=
  fun s => match body s with
           | (Ok a, s') => (Ok a, s')
           | (Raise e, s') => if handles e then handler e s' else (Raise e, s')
           end.

(** [try: body  except <h1>: handler1  except <h2>: handler2]: the first
    clause that matches runs, and what it raises is not caught here. *)
Definition try_except2 {St A} (body : M St A)
    (handles1 : exn -> bool) (handler1 : exn -> M St A)
    (handles2 : exn -> bool) (handler2 : exn -> M St A) : M St A :=
  fun s => match body s with
           | (Ok a, s') => (Ok a, s')
           | (Raise e, s') =>
               if handles1 e then handler1 e s'
               else if handles2 e then handler2 e s'
               else (Raise e, s')
           end.

(** What one pass through the body of a [for] loop asks for next. *)
Inductive flow (A : Type) :=
| Continue
| Return (a : A).
Arguments Continue {A}.
Arguments Return {A} a.

(** [for i in items: body(i)] in a function: the value returned from inside
    the loop, or [None] when the loop runs out. *)
Fixpoint for_in {St I A} (body : I -> M St (flow A)) (items : list I)
  : M St (option A) :=
  match items with
  | [] => fun s => (Ok None, s)
  | i :: rest =>
      fun s => match body i s with
               | (Ok (Return a), s') => (Ok (Some a), s')
               | (Ok Continue, s') => for_in body rest s'
               | (Raise e, s') => (Raise e, s')
               end
  end.

Definition get {St} : M St St := fun s => (Ok s, s).
Definition modify {St} (f : St -> St) : M St unit := fun s => (Ok tt, f s).

Notation "'let*' x '=' c 'in' k" := (bind c (fun x => k))
  (at level 10, x name, c at level 100, k at level 200).
Notation "c ';;;' k" := (bind c (fun _ => k))
  (at level 100, k at level 200, right associativity).

(** The exit status of a Python process whose main module returns or
    raises. *)
Definition exit_status {A} (r : result A) : Z :=
  match r with
  | Ok _ => 0
  | Raise (SystemExit n) => n
  | Raise _ => 1
  end.

(** ** json.dumps(obj, sort_keys=True) *)

Module Json.

(** The values a MongoDB document holds once decoded by the driver. *)
Inductive json :=
| JNull
| JBool (b : bool)
| JInt (n : Z)
| JFloat (repr : string)           (* a float, by its [repr] *)
| JStr (s : string)
| JArr (items : list json)
| JObj (items : list (string * json))   (* a dict, in insertion order *)
| JBson (kind : string).           (* ObjectId, datetime, ...: not encodable *)

Definition DQ : string := String "034"%char EmptyString.

(** One character of [encode_basestring_ascii]. *)
Definition escape_char (c : ascii) : string :=
  let n := Py.code c in
  if n =? 34 then "\" ++ DQ
  else if n =? 92 then "\\"
  else if n =? 10 then "\n"
  else if n =? 13 then "\r"
  else if n =? 9 then "\t"
  else if n =? 8 then "\b"
  else if n =? 12 then "\f"
  else if (32 <=? n) && (n <=? 126) then String c EmptyString
  else "\u00" ++ string_of_list_ascii (MD5.hex_byte n).

Fixpoint escape (s : string) : string :=
  match s with
  | String c t => escape_char c ++ escape t
  | EmptyString => EmptyString
  end.

Definition quote (s : string) : string := DQ ++ escape s ++ DQ.

(** [floatstr] of the encoder: the [repr] of a finite float, and the
    words NaN, Infinity and -Infinity for the three other floats (whose
    [repr] is nan, inf and -inf). *)
Definition floatstr (repr : string) : string :=
  if String.eqb repr "nan" then "NaN"
  else if String.eqb repr "inf" then "Infinity"
  else if String.eqb repr "-inf" then "-Infinity"
  else repr.

(** The order [sorted(dct.items())] puts the items of a dict in: by key,
    the keys of a dict being distinct. *)
Definition item_le {A} (a b : string * A) : Prop := Py.str_le a.1 b.1.

#[global] Instance item_le_dec {A} (a b : string * A) : Decision (item_le a b).
Proof. unfold item_le. apply _. Defined.

Definition sort_items {A} (items : list (string * A)) : list (string * A) :=
  merge_sort item_le items.

Definition render_item (item : string * string) : string :=
  quote item.1 ++ ": " ++ item.2.

(** [json.dumps(v, sort_keys=True)] with the default separators and
    [ensure_ascii]; [None] when the encoder raises [TypeError].  The
    values of a dict are encoded before its items are sorted: the text is
    the one the encoder produces by sorting first. *)
Fixpoint dumps (v : json) : option string :=
  match v with
  | JNull => Some "null"
  | JBool true => Some "true"
  | JBool false => Some "false"
  | JInt n => Some (Py.str_of_Z n)
  | JFloat r => Some (floatstr r)
  | JStr s => Some (quote s)
  | JArr items =>
      match mapM dumps items with
      | Some parts => Some ("[" ++ Py.join ", " parts ++ "]")
      | None => None
      end
  | JObj items =>
      match mapM (fun kv => match dumps kv.2 with
                            | Some s => Some (kv.1, s)
                            | None => None
                            end) items with
      | Some parts =>
          Some ("{" ++ Py.join ", " (map render_item (sort_items parts)) ++ "}")
      | None => None
      end
  | JBson _ => None
  end.

(** A dict has distinct keys, at every level. *)
Fixpoint wf (v : json) : bool :=
  match v with
  | JArr items => forallb wf items
  | JObj items =>
      bool_decide (NoDup (map fst items)) && forallb (fun kv => wf kv.2) items
  | _ => true
  end.

(** Two values that differ only in the order of the keys of their dicts. *)
Inductive same_upto_key_order : json -> json -> Prop :=
| same_null : same_upto_key_order JNull JNull
| same_bool b : same_upto_key_order (JBool b) (JBool b)
| same_int n : same_upto_key_order (JInt n) (JInt n)
| same_float r : same_upto_key_order (JFloat r) (JFloat r)
| same_str s : same_upto_key_order (JStr s) (JStr s)
| same_bson k : same_upto_key_order (JBson k) (JBson k)
| same_arr xs ys :
    Forall2 same_upto_key_order xs ys ->
    same_upto_key_order (JArr xs) (JArr ys)
| same_obj xs ys zs :
    Forall2 (fun a b => a.1 = b.1 /\ same_upto_key_order a.2 b.2) xs ys ->
    Permutation ys zs ->
    same_upto_key_order (JObj xs) (JObj zs).

End Json.

(** ** The document store, as the driver shows it *)

Module Mongo.
Import Json.

(** A document: a dict from field names to values. *)
Definition document : Type := list (string * json).

(** [mongo_client[name]] *)
Record database := Database {
  (** [db.list_collection_names()]; [None] when the driver raises *)
  list_collection_names : option (list string);
  (** the documents of a collection, in the order the cursor returns
      them; [None] when the driver raises *)
  documents : string -> option (list document)
}.

Definition client : Type := string -> database.

(** The outcome of [MongoClient(...)] followed by
    [admin.command('ping')]. *)
Inductive connection :=
| Unreachable
| Connected (c : client).

Definition strip_id (doc : document) : document :=
  filter (fun kv => negb (String.eqb kv.1 "_id")) doc.

(** [list(collection.find({}, {'_id': 0}))] *)
Definition find_no_id (db : database) (collection : string)
  : option (list document) :=
  match documents db collection with
  | Some docs => Some (map strip_id docs)
  | None => None
  end.

(** The collections [get_latest_collection] considers, and its choice
    among them; both scripts share the two lines. *)
Definition net_data (names : list string) : list string :=
  filter (fun coll => Py.startswith coll "Net_Data_") names.

Definition latest_of (collections : list string) : option string :=
  head (Py.sorted_reverse collections).

End Mongo.

(** ** check_mongo_changes.py: the Change Detector *)

Module Detector.
Import Json Mongo.

(** What [HASH_FILE] is in the working directory, by what the three
    accesses of the script do on it:
    - [Missing]: no such path; [open(HASH_FILE, 'w')] creates the file;
    - [RegularFile text]: a file that is read as [text] and can be
      overwritten;
    - [Directory]: it exists, and opening it raises;
    - [Undecodable]: a file whose bytes do not decode; it opens,
      [f.read()] raises, and it can be overwritten;
    - [Protected]: a file the process may neither read nor write; [open]
      raises;
    - [ReadOnly text]: a file that is read as [text] and that the process
      may not write;
    - [Uncreatable]: no such path, in a directory where the file cannot be
      created.
    An access that raises leaves the file as it was. *)
Inductive path_state :=
| Missing
| RegularFile (text : string)
| Directory
| Undecodable
| Protected
| ReadOnly (text : string)
| Uncreatable.

Inductive event :=
| Connect (retry : nat)      (* one pass through the [try] block *)
| Sleep (seconds : Z)
| WriteHash (text : string). (* [open(HASH_FILE, 'w')] and [f.write] *)

Record state := State {
  hash_file : path_state;
  stdout : string;
  trace : list event
}.

Definition DATABASES : list string := ["BACHV_BB_STOCKS"; "BACHV_UD_STOCKS"].

Definition max_retries : nat := 3.
Definition retry_delay : Z := 2.

Definition emit (e : event) : M state unit :=
  modify (fun s => State (hash_file s) (stdout s) (trace s ++ [e])).

Definition sleep (seconds : Z) : M state unit := emit (Sleep seconds).

(** [print(line, flush=True)] *)
Definition print (line : string) : M state unit :=
  modify (fun s => State (hash_file s)
                         (stdout s ++ line ++ String Py.LF EmptyString)
                         (trace s)).

(** [os.path.exists(HASH_FILE)] *)
Definition path_exists : M state bool :=
  fun s => (Ok (match hash_file s with
                | Missing | Uncreatable => false
                | _ => true
                end), s).

(** [with open(HASH_FILE, 'r') as f: f.read()] *)
Definition read_hash_file : M state string :=
  fun s => match hash_file s with
           | RegularFile text | ReadOnly text => (Ok text, s)
           | Missing | Uncreatable => (Raise (Error "FileNotFoundError"), s)
           | Directory => (Raise (Error "IsADirectoryError"), s)
           | Undecodable => (Raise (Error "UnicodeDecodeError"), s)
           | Protected => (Raise (Error "PermissionError"), s)
           end.

(** [with open(HASH_FILE, 'w') as f: f.write(text)] *)
Definition write_hash_file (text : string) : M state unit :=
  fun s => match hash_file s with
           | Missing | RegularFile _ | Undecodable =>
               (Ok tt, State (RegularFile text) (stdout s)
                             (trace s ++ [WriteHash text]))
           | Directory => (Raise (Error "IsADirectoryError"), s)
           | Protected | ReadOnly _ | Uncreatable =>
               (Raise (Error "PermissionError"), s)
           end.

(** [get_latest_collection]: any exception of the driver is caught and
    gives [None]. *)
Definition get_latest_collection (mongo_client : client) (database : string)
  : option string :=
  match list_collection_names (mongo_client database) with
  | Some names =>
      let collections := net_data names in
      match collections with
      | [] => None
      | _ => latest_of collections
      end
  | None => None
  end.

(** The loop over [DATABASES] that fills [all_data]; [None] when
    [find] raises. *)
Fixpoint collect (mongo_client : client) (databases : list string)
  : option (list json) :=
  match databases with
  | [] => Some []
  | database :: rest =>
      match get_latest_collection mongo_client database with
      | None => collect mongo_client rest          (* [continue] *)
      | Some latest_collection =>
          match find_no_id (mongo_client database) latest_collection with
          | None => None
          | Some docs =>
              match collect mongo_client rest with
              | None => None
              | Some all_data =>
                  Some (JObj [("database", JStr database);
                              ("collection", JStr latest_collection);
                              ("data", JArr (map JObj docs))] :: all_data)
              end
          end
      end
  end.

(** The body of the [try] block of [get_mongodb_data_hash]; [None] when
    it raises. *)
Definition try_hash (conn : connection) : option string :=
  match conn with
  | Unreachable => None
  | Connected mongo_client =>
      match collect mongo_client DATABASES with
      | None => None
      | Some all_data =>
          match dumps (JArr all_data) with
          | None => None
          | Some data_string =>
              Some (MD5.hexdigest (MD5.encode data_string))
          end
      end
  end.

(** [for retry in range(max_retries)]; [mongo retry] is what the store
    answers on that attempt. *)
Fixpoint hash_loop (mongo : nat -> connection) (retries : list nat)
  : M state (option string) :=
  match retries with
  | [] => ret None
  | retry :: rest =>
      emit (Connect retry) ;;;
      match try_hash (mongo retry) with
      | Some data_hash => ret (Some data_hash)
      | None =>
          if (retry <? max_retries - 1)%nat then
            sleep retry_delay ;;;
            hash_loop mongo rest
          else ret None
      end
  end.

Definition get_mongodb_data_hash (mongo : nat -> connection)
  : M state (option string) :=
  hash_loop mongo (seq 0 max_retries).

Definition has_data_changed (mongo : nat -> connection) : M state bool :=
  let* current = get_mongodb_data_hash mongo in
  match current with
  | None => ret false
  | Some current_hash =>
      let* present = path_exists in
      if negb present then
        write_hash_file current_hash ;;;
        ret true
      else
        let* text = read_hash_file in
        let previous_hash := Py.strip text in
        let has_changed := negb (String.eqb current_hash previous_hash) in
        (if has_changed then write_hash_file current_hash else ret tt) ;;;
        ret has_changed
  end.

(** The [__main__] block. *)
Definition main (mongo : nat -> connection) : M state unit :=
  try_except
    (let* result = has_data_changed mongo in
     if result then print "YES_CHANGED" else print "NO_CHANGED")
    is_Exception
    (fun _ => print "ERROR").

(** The script as a process starts with an empty standard output. *)
Definition start (file : path_state) : state := State file "" [].

(** One run of the script: what it leaves in [HASH_FILE], what it wrote
    to its standard output, what it did. *)
Definition run (mongo : nat -> connection) (file : path_state) : state :=
  (main mongo (start file)).2.

(** A line of the standard output. *)
Definition line (token : string) : string :=
  token ++ String Py.LF EmptyString.

End Detector.

(** ** get_mongo_data.py: the Data Refresher *)

Module Refresher.
Import Json Mongo.

Inductive level := INFO | WARNING | ERROR.

(** The log lines of the script, each by its format and arguments. *)
Inductive message :=
| Starting                                      (* "Starting MongoDB data fetch process" *)
| ConnectionError (attempt : nat)               (* "MongoDB connection error (attempt ..." *)
| Reconnecting (seconds : Z)                    (* "Trying to reconnect after ..." *)
| Processing (db : string)                      (* "Processing database: ..." *)
| NoCollections (db : string)                   (* "No collections found starting with ..." *)
| Available (names : option (list string))      (* "Available collections: ..." *)
| NoPrefix (db : string)                        (* "Error: No collections found with the required prefix ..." *)
| LatestCollection (db collection : string)     (* "Latest collection in ...: ..." *)
| Found (records : nat) (db : string)           (* "Found ... records from ..." *)
| NoData (db : string)                          (* "Warning: No data found in the collection ..." *)
| Saved (db path : string)                      (* "Data from ... saved to: ..." *)
| Fetched (db : string)                         (* "Successfully fetched and saved data from ..." *)
| Failed (db : string)                          (* "Failed to fetch data from ..." *)
| ErrorProcessing (db : string)                 (* "Error processing ...: ..." *)
| Completed.                                    (* "MongoDB data fetch process completed" *)

Inductive event :=
| Connect (retry : nat)
| Sleep (seconds : Z)
| Log (lvl : level) (msg : message)
| Makedirs (dir : string)
| ToCsv (path : string) (rows : list document).

(** The files of the [Get_Data] tree, each by the rows written to it;
    [clock] counts the calls to [datetime.now()] of the run.  The file
    system lets the script create its directories and files. *)
Record state := State {
  files : gmap string (list document);
  clock : nat;
  trace : list event
}.

Definition emit (e : event) : M state unit :=
  modify (fun s => State (files s) (clock s) (trace s ++ [e])).

Definition log (lvl : level) (msg : message) : M state unit :=
  emit (Log lvl msg).

Definition sleep (seconds : Z) : M state unit := emit (Sleep seconds).

(** Modelled from the spec: [ApiPredictionException] is declared in
    [ApiStock/exception/exception.py], which is not part of the sources at
    hand.  The spec has per-database failures logged and not raised past
    the main loop, whose handler is [except Exception]: the class is an
    [Exception]. *)
Definition ApiPredictionException : exn := Error "ApiPredictionException".

Definition AttributeError : exn := Error "AttributeError".

Definition max_retries : nat := 3.
Definition retry_delay : Z := 2.

(** An instance of [NetworkDataFetch]: its attribute [mongo_client], once
    set. *)
Record NetworkDataFetch := Self { mongo_client : option client }.

Section Run.

(** What the store answers on each connection attempt, and the text
    [datetime.now().strftime("%Y%m%d_%H%M%S")] gives at each call. *)
Variable mongo : nat -> connection.
Variable now : nat -> string.

Definition strftime_now : M state string :=
  fun s => (Ok (now (clock s)), State (files s) (Datatypes.S (clock s)) (trace s)).

(** [NetworkDataFetch.__init__] *)
Fixpoint init_loop (retries : list nat) : M state NetworkDataFetch :=
  match retries with
  | [] => ret (Self None)
  | retry :: rest =>
      emit (Connect retry) ;;;
      match mongo retry with
      | Connected c => ret (Self (Some c))              (* [break] *)
      | Unreachable =>
          if (retry <? max_retries - 1)%nat then
            log WARNING (ConnectionError (retry + 1)) ;;;
            log INFO (Reconnecting retry_delay) ;;;
            sleep retry_delay ;;;
            init_loop rest
          else raise ApiPredictionException
      end
  end.

Definition init : M state NetworkDataFetch := init_loop (seq 0 max_retries).

(** [self.mongo_client[database]] *)
Definition get_db (self : NetworkDataFetch) (database : string)
  : M state Mongo.database :=
  match mongo_client self with
  | Some c => ret (c database)
  | None => raise AttributeError
  end.

Definition driver {A} (answer : option A) : M state A :=
  match answer with
  | Some a => ret a
  | None => raise (Error "PyMongoError")
  end.

Definition get_latest_collection (self : NetworkDataFetch)
    (database : string) : M state (option string) :=
  try_except
    (let* db = get_db self database in
     let* names = driver (list_collection_names db) in
     let collections := net_data names in
     match collections with
     | [] =>
         log WARNING (NoCollections database) ;;;
         log WARNING (Available (list_collection_names db)) ;;;
         ret None
     | _ => ret (latest_of collections)
     end)
    is_Exception
    (fun _ => raise ApiPredictionException).

Definition fetch_data_from_mongodb (self : NetworkDataFetch)
    (database collection : string) : M state (list document) :=
  try_except
    (let* db = get_db self database in
     driver (find_no_id db collection))
    is_Exception
    (fun _ => raise ApiPredictionException).

(** [pd.DataFrame(data).to_csv(output_path, index=False)] *)
Definition save_to_csv (data : list document) (output_path : string)
  : M state string :=
  try_except
    (modify (fun s => State (<[output_path := data]> (files s)) (clock s)
                            (trace s ++ [ToCsv output_path data])) ;;;
     ret output_path)
    is_Exception
    (fun _ => raise ApiPredictionException).

Definition sub_dir_of (database : string) : string :=
  if Py.contains "BB" database then "BB"
  else if Py.contains "UD" database then "UD"
  else "Other".

Definition output_file_of (base_output_dir filename_prefix database
                           current_time : string) : string :=
  Py.path_join (Py.path_join base_output_dir (sub_dir_of database))
               (filename_prefix ++ "_" ++ current_time ++ ".csv").

Definition fetch_and_save_data (self : NetworkDataFetch)
    (database base_output_dir filename_prefix : string)
  : M state (option string) :=
  try_except
    (let sub_dir := sub_dir_of database in
     let output_dir := Py.path_join base_output_dir sub_dir in
     emit (Makedirs output_dir) ;;;
     let* current_time = strftime_now in
     let output_file :=
       Py.path_join output_dir
                    (filename_prefix ++ "_" ++ current_time ++ ".csv") in
     let* latest = get_latest_collection self database in
     match latest with
     | None =>
         log ERROR (NoPrefix database) ;;;
         ret None
     | Some latest_collection =>
         log INFO (LatestCollection database latest_collection) ;;;
         let* data = fetch_data_from_mongodb self database latest_collection in
         log INFO (Found (length data) database) ;;;
         if (length data =? 0)%nat then
           log WARNING (NoData database) ;;;
           ret None
         else
           let* saved_file = save_to_csv data output_file in
           log INFO (Saved database saved_file) ;;;
           ret (Some saved_file)
     end)
    is_Exception
    (fun _ => raise ApiPredictionException).

(** [if result:] on the value [fetch_and_save_data] returned. *)
Definition truthy (result : option string) : bool :=
  match result with
  | Some path => negb (String.eqb path "")
  | None => false
  end.

Definition OUTPUT_DIR : string := "Get_Data".
Definition FILENAME_PREFIX : string := "mongodb_data".

(** One pass of [for db in DATABASES]. *)
Definition process (network_fetch : NetworkDataFetch) (db : string)
  : M state unit :=
  try_except
    (log INFO (Processing db) ;;;
     let* result = fetch_and_save_data network_fetch db OUTPUT_DIR
                                       FILENAME_PREFIX in
     if truthy result then log INFO (Fetched db) else log ERROR (Failed db))
    is_Exception
    (fun _ => log ERROR (ErrorProcessing db)).

Fixpoint for_each (network_fetch : NetworkDataFetch) (dbs : list string)
  : M state unit :=
  match dbs with
  | [] => ret tt
  | db :: rest => process network_fetch db ;;; for_each network_fetch rest
  end.

(** The [__main__] block, for a configured list of databases. *)
Definition main_with (databases : list string) : M state unit :=
  log INFO Starting ;;;
  let* network_fetch = init in
  for_each network_fetch databases ;;;
  log INFO Completed.

Definition DATABASES : list string := ["BACHV_BB_STOCKS"; "BACHV_UD_STOCKS"].

Definition main : M state unit := main_with DATABASES.

End Run.

(** One run of the script as a process over the files already there: its
    exit status and what it leaves. *)
Definition run (mongo : nat -> connection) (now : nat -> string)
    (fs : gmap string (list document)) : Z * state :=
  let r := main mongo now (State fs 0%nat []) in
  (exit_status r.1, r.2).

End Refresher.

(** ** API.py: the choice of the latest snapshot *)

Module Api.

(** An entry of a directory: its name, whether [os.stat] succeeds on its
    path (it raises on a link whose target is missing), what
    [os.path.getctime] returns for it when it does (a finite float, by its
    place in the order), whether what the path leads to is a regular file
    and whether [pd.read_csv] parses it. *)
Record dirent := Dirent {
  d_name : string;
  d_stat : bool;
  d_ctime : Z;
  d_regular : bool;
  d_csv : bool
}.

(** [os.path.isfile(path)]: false when [os.stat] raises. *)
Definition d_isfile (e : dirent) : bool := d_stat e && d_regular e.

(** The sub-directories of [<current_dir>/Get_Data], each with its
    entries in the order the directory listing enumerates them. *)
Definition tree : Type := string -> option (list dirent).

(** [fnmatch(name, "mongodb_data_*.csv")] *)
Definition matches (name : string) : bool :=
  Py.startswith name "mongodb_data_" && Py.endswith name ".csv"
  && (17 <=? String.length name)%nat.

(** [glob.glob(os.path.join(data_dir, "mongodb_data_*.csv"))] *)
Definition glob (entries : list dirent) : list dirent :=
  filter (fun e => matches (d_name e)) entries.

(** [max(items, key=key)]: the first item whose key no later item
    exceeds. *)
Fixpoint max_from {A} (key : A -> Z) (best : A) (items : list A) : A :=
  match items with
  | [] => best
  | x :: rest => max_from key (if key best <? key x then x else best) rest
  end.

Definition py_max {A} (key : A -> Z) (items : list A) : option A :=
  match items with
  | [] => None
  | x :: rest => Some (max_from key x rest)
  end.

Inductive response :=
| Latest (latest_file : string)
| HTTPException (status_code : Z).

Definition get_latest_csv (current_dir : string) (fs : tree)
    (data_type : string) : response :=
  if negb (bool_decide (Py.upper data_type ∈ ["BB"; "UD"])) then
    HTTPException 500                                   (* ValueError *)
  else
    let sub_dir := Py.upper data_type in
    let data_dir := Py.path_join (Py.path_join current_dir "Get_Data") sub_dir in
    match fs sub_dir with
    | None => HTTPException 500                         (* FileNotFoundError *)
    | Some entries =>
        let csv_files := glob entries in
        if negb (forallb d_stat csv_files) then
          HTTPException 500            (* [os.path.getctime] raises in [max] *)
        else
          match py_max d_ctime csv_files with
          | None => HTTPException 500                   (* FileNotFoundError *)
          | Some latest =>
              let latest_file := Py.path_join data_dir (d_name latest) in
              if negb (d_isfile latest) then HTTPException 500
              else if negb (d_csv latest) then HTTPException 500
              else Latest latest_file
          end
    end.

End Api.

(** ** main.py: the Supervisor *)

Module Supervisor.

(** A [Popen] object. *)
Definition handle : Type := nat.

(** What [process.communicate] returns, with [process.returncode]. *)
Record completed := Completed {
  c_stdout : string;
  c_stderr : string;
  c_returncode : Z
}.

(** [proc.info] of [psutil.process_iter(['pid', 'name', 'cmdline'])] *)
Record proc_info := ProcInfo {
  p_pid : Z;
  p_name : option string;
  p_cmdline : option (list string)
}.

(** The operating system under the Supervisor: every call may return or
    raise, and moves the world [W]. *)
Record OS (W : Type) := {
  (** the socket calls of [is_api_server_running], by the value of
      [sock.connect_ex(('0.0.0.0', 8080))] *)
  connect_ex : W -> result Z * W;
  process_iter : W -> result (list proc_info) * W;
  (** [subprocess.Popen([sys.executable, script], ...)] *)
  popen : string -> W -> result handle * W;
  (** [process.communicate(timeout=t)] *)
  communicate : handle -> Z -> W -> result completed * W;
  kill : handle -> W -> result unit * W;
  poll : handle -> W -> result (option Z) * W;
  terminate : handle -> W -> result unit * W;
  time_sleep : Z -> W -> result unit * W;
  (** [int(os.environ.get('CHECK_INTERVAL', 7200))] *)
  check_interval : W -> result Z * W
}.

Inductive event :=
| ConnectEx
| ProcessIter
| Popen (script : string)
| Communicate (process : handle) (timeout : Z)
| Kill (process : handle)
| Poll (process : handle)
| Terminate (process : handle)
| Sleep (seconds : Z)
| CheckInterval.

Inductive status := Running | Ended.

Section Supervisor.

Context {W : Type} (os : OS W).

(** The world, the variable [api_process] of [main], the variable
    [process] of the function that is running, and the calls made. *)
Record state := State {
  world : W;
  api_process : option handle;
  process : option handle;
  trace : list event
}.

(** A call to the operating system. *)
Definition call {A} (e : event) (op : W -> result A * W) : M state A :=
  fun s => let '(r, w) := op (world s) in
           (r, State w (api_process s) (process s) (trace s ++ [e])).

Definition set_api_process (p : option handle) : M state unit :=
  modify (fun s => State (world s) p (process s) (trace s)).

Definition set_process (p : option handle) : M state unit :=
  modify (fun s => State (world s) (api_process s) p (trace s)).

Definition sleep (seconds : Z) : M state unit :=
  call (Sleep seconds) (time_sleep W os seconds).

(** [process = subprocess.Popen([sys.executable, script], ...)] *)
Definition popen_process (script : string) : M state unit :=
  let* p = call (Popen script) (popen W os script) in
  set_process (Some p).

(** The variable [process], if bound. *)
Definition the_process : M state handle :=
  let* s = get in
  match process s with
  | Some p => ret p
  | None => raise (Error "UnboundLocalError")
  end.

Definition communicate_process (timeout : Z) : M state completed :=
  let* p = the_process in
  call (Communicate p timeout) (communicate W os p timeout).

Definition kill_process : M state unit :=
  let* p = the_process in
  call (Kill p) (kill W os p).

Definition is_api_server_running : M state bool :=
  try_except
    (let* result = call ConnectEx (connect_ex W os) in
     ret (result =? 0))
    is_Exception
    (fun _ => ret false).

Definition is_python (name : option string) : bool :=
  match name with
  | Some n => String.eqb n "python.exe" || String.eqb n "python"
  | None => false
  end.

Definition runs_api (cmdline : option (list string)) : bool :=
  match cmdline with
  | Some (_ :: arg :: _) => Py.contains "API.py" arg
  | _ => false
  end.

Fixpoint first_api (procs : list proc_info) : option Z :=
  match procs with
  | [] => None
  | proc :: rest =>
      if is_python (p_name proc) && runs_api (p_cmdline proc)
      then Some (p_pid proc)
      else first_api rest
  end.

Definition get_api_server_pid : M state (option Z) :=
  try_except
    (let* procs = call ProcessIter (process_iter W os) in
     ret (first_api procs))
    is_Exception
    (fun _ => ret None).

Definition max_retries : nat := 3.

(** The tail shared by the failing branches: wait and go round again,
    or give up on the last pass. *)
Definition retry_or_stop (retry : nat) : M state (flow bool) :=
  if (retry <? max_retries - 1)%nat then
    sleep 2 ;;;
    ret Continue
  else ret (Return false).

(** One pass of the loop of [check_mongodb_changes]. *)
Definition check_attempt (retry : nat) : M state (flow bool) :=
  try_except
    (popen_process "check_mongo_changes.py" ;;;
     let* out = communicate_process 60 in
     let stdout := c_stdout out in
     if Py.contains "YES_CHANGED" stdout then ret (Return true)
     else if Py.contains "NO_CHANGED" stdout then ret (Return false)
     else if Py.contains "ERROR" stdout then retry_or_stop retry
     else retry_or_stop retry)
    is_TimeoutExpired
    (fun _ => kill_process ;;; retry_or_stop retry).

Definition check_mongodb_changes : M state (option bool) :=
  set_process None ;;;
  try_except
    (for_in check_attempt (seq 0 max_retries))
    is_Exception
    (fun _ => ret (Some false)).

(** One pass of the loop of [run_get_mongo_data]. *)
Definition fetch_attempt (retry : nat) : M state (flow bool) :=
  try_except
    (popen_process "get_mongo_data.py" ;;;
     let* out = communicate_process 120 in
     if c_returncode out =? 0 then ret (Return true)
     else retry_or_stop retry)
    is_TimeoutExpired
    (fun _ => kill_process ;;; retry_or_stop retry).

Definition run_get_mongo_data : M state (option bool) :=
  set_process None ;;;
  try_except
    (for_in fetch_attempt (seq 0 max_retries))
    is_Exception
    (fun _ => ret (Some false)).

(** [if value:] on what the two functions return. *)
Definition truthy (value : option bool) : bool :=
  match value with
  | Some true => true
  | _ => false
  end.

(** [api_process = subprocess.Popen([sys.executable, "API.py"], ...)] *)
Definition start_api : M state unit :=
  let* p = call (Popen "API.py") (popen W os "API.py") in
  set_api_process (Some p).

(** [if api_process is not None: api_process.terminate()] *)
Definition terminate_api : M state unit :=
  let* s = get in
  match api_process s with
  | Some p => call (Terminate p) (terminate W os p)
  | None => ret tt
  end.

(** The restart of a child that has exited (lines 185 to 193). *)
Definition restart_if_stopped : M state unit :=
  let* s = get in
  match api_process s with
  | Some p =>
      let* code = call (Poll p) (poll W os p) in
      match code with
      | Some _ => start_api
      | None => ret tt
      end
  | None => ret tt
  end.

(** Detection and refresh (lines 194 to 202). *)
Definition check_and_refresh : M state unit :=
  let* changed = check_mongodb_changes in
  if truthy changed then
    let* data_success = run_get_mongo_data in
    ret tt
  else ret tt.

(** The body of [while True]. *)
Definition iteration : M state unit :=
  let* sleep_time = call CheckInterval (check_interval W os) in
  sleep sleep_time ;;;
  restart_if_stopped ;;;
  check_and_refresh.

(** [while True], cut after [fuel] passes. *)
Fixpoint while_true (fuel : nat) : M state unit :=
  match fuel with
  | O => ret tt
  | Datatypes.S fuel' => iteration ;;; while_true fuel'
  end.

(** [main], observed until it ends or has made [fuel] passes through
    its loop. *)
Definition main (fuel : nat) : M state status :=
  let* api_running = is_api_server_running in
  let* api_pid = get_api_server_pid in
  set_api_process None ;;;
  (if api_running then ret tt
   else
     let* initial_data_success = run_get_mongo_data in
     if truthy initial_data_success then start_api
     else raise (SystemExit 1)) ;;;
  try_except2
    (while_true fuel ;;; ret Running)
    is_KeyboardInterrupt (fun _ => terminate_api ;;; ret Ended)
    is_Exception (fun _ => terminate_api ;;; ret Ended).

Definition boot (w : W) : state := State w None None [].

End Supervisor.

Arguments State {W}.
Arguments world {W}.
Arguments api_process {W}.
Arguments process {W}.
Arguments trace {W}.

End Supervisor.

(** ** The three scripts on one machine

    An operating system for the Supervisor whose children are the two
    scripts above, run against the files of the working directory. *)

Module System.
Import Mongo Supervisor.

(** What becomes of a child once started. *)
Inductive fate :=
(** it runs to its end; [mongo] is what the store answers on its
    connection attempts, [now] what its clock reads *)
| Completes (mongo : nat -> connection) (now : nat -> string)
(** it is still waiting for the store when the timeout expires, and has
    touched no file by then *)
| Hangs.

Record machine := Machine {
  hash_file : Detector.path_state;             (* last_data_hash.txt *)
  get_data : gmap string (list document);      (* the Get_Data tree *)
  port_open : bool;                            (* port 8080 accepts connections *)
  children : nat -> fate;                      (* the fate of each child, by handle *)
  started : list string                        (* the scripts started, in order *)
}.

Definition sys_popen (script : string) (w : machine) : result handle * machine :=
  (Ok (length (started w)),
   Machine (hash_file w) (get_data w) (port_open w) (children w)
         (started w ++ [script])).

Definition run_detector (mongo : nat -> connection) (w : machine)
  : result completed * machine :=
  let d := Detector.run mongo (hash_file w) in
  (Ok (Completed (Detector.stdout d) "" 0),
   Machine (Detector.hash_file d) (get_data w) (port_open w) (children w)
         (started w)).

Definition run_refresher (mongo : nat -> connection) (now : nat -> string)
    (w : machine) : result completed * machine :=
  let r := Refresher.run mongo now (get_data w) in
  (Ok (Completed "" "" r.1),
   Machine (hash_file w) (Refresher.files r.2) (port_open w) (children w)
         (started w)).

Definition sys_communicate (p : handle) (timeout : Z) (w : machine)
  : result completed * machine :=
  match started w !! p, children w p with
  | Some script, Completes mongo now =>
      if String.eqb script "check_mongo_changes.py" then run_detector mongo w
      else if String.eqb script "get_mongo_data.py" then run_refresher mongo now w
      else (Raise TimeoutExpired, w)                   (* the API server serves on *)
  | Some _, Hangs => (Raise TimeoutExpired, w)
  | None, _ => (Raise (Error "ValueError"), w)
  end.

Definition sys_os : OS machine := {|
  connect_ex := fun w => (Ok (if port_open w then 0 else 111), w);
  process_iter := fun w => (Ok [], w);
  popen := sys_popen;
  communicate := sys_communicate;
  kill := fun _ w => (Ok tt, w);
  poll := fun _ w => (Ok None, w);
  terminate := fun _ w => (Ok tt, w);
  time_sleep := fun _ w => (Ok tt, w);
  check_interval := fun w => (Ok 7200, w)
|}.

End System.

(* ===================================================================== *)
(** * Part II: lemmas and theorems                                        *)
(* ===================================================================== *)

Open Scope list_scope.

(** ** Strings *)

Module PyFacts.
Import Py.

Definition no_space (s : string) : Prop :=
  Forall (fun c => isspace c = false) (list_ascii_of_string s).

Lemma lstrip_no_space s : no_space s -> lstrip s = s.
Proof.
  destruct s as [|c t]; [done|].
  intros H. apply Forall_cons in H as [Hc _]. simpl. by rewrite Hc.
Qed.

Lemma rstrip_no_space s : no_space s -> rstrip s = s.
Proof.
  induction s as [|c t IH]; [done|].
  intros H. apply Forall_cons in H as [Hc Ht]. simpl.
  rewrite (IH Ht). destruct t; [by rewrite Hc | done].
Qed.

(** Stripping a text that holds no white space gives the text back. *)
Lemma strip_no_space s : no_space s -> strip s = s.
Proof.
  intros H. unfold strip. rewrite (lstrip_no_space s H).
  by apply rstrip_no_space.
Qed.

Lemma ascii_compare_refl c : Ascii.compare c c = Eq.
Proof. unfold Ascii.compare. apply N.compare_refl. Qed.

Lemma ascii_compare_lt_trans a b c :
  Ascii.compare a b = Lt -> Ascii.compare b c = Lt -> Ascii.compare a c = Lt.
Proof.
  unfold Ascii.compare. rewrite !N.compare_lt_iff. lia.
Qed.

Lemma string_compare_refl s : String.compare s s = Eq.
Proof.
  induction s as [|c t IH]; [done|]. simpl. by rewrite ascii_compare_refl.
Qed.

Lemma string_compare_lt_trans a : forall b c,
  String.compare a b = Lt -> String.compare b c = Lt -> String.compare a c = Lt.
Proof.
  induction a as [|x a IH]; intros [|y b] [|z c]; simpl; try done.
  destruct (Ascii.compare x y) eqn:Hxy; try done;
    destruct (Ascii.compare y z) eqn:Hyz; try done.
  - apply Ascii.compare_eq_iff in Hxy, Hyz. subst.
    rewrite ascii_compare_refl. apply IH.
  - apply Ascii.compare_eq_iff in Hxy. subst. by rewrite Hyz.
  - apply Ascii.compare_eq_iff in Hyz. subst. by rewrite Hxy.
  - by rewrite (ascii_compare_lt_trans x y z).
Qed.

#[global] Instance str_le_trans : Transitive str_le.
Proof.
  intros a b c. unfold str_le, String.leb.
  destruct (String.compare a b) eqn:Hab; try done;
    destruct (String.compare b c) eqn:Hbc; try done; intros _ _.
  - apply String.compare_eq_iff in Hab, Hbc. subst.
    by rewrite string_compare_refl.
  - apply String.compare_eq_iff in Hab. subst. by rewrite Hbc.
  - apply String.compare_eq_iff in Hbc. subst. by rewrite Hab.
  - by rewrite (string_compare_lt_trans a b c).
Qed.

#[global] Instance str_le_total : Total str_le.
Proof. intros a b. apply String.leb_total. Qed.

Lemma str_le_antisym a b : str_le a b -> str_le b a -> a = b.
Proof. apply String.leb_antisym. Qed.

End PyFacts.

(** ** MD5 *)

Module MD5Facts.
Import Py MD5 PyFacts.

(** The test suite of RFC 1321, and a message of more than one block. *)
Example md5_empty : hexdigest (encode "") = "d41d8cd98f00b204e9800998ecf8427e".
Proof. vm_compute. reflexivity. Qed.

Example md5_abc : hexdigest (encode "abc") = "900150983cd24fb0d6963f7d28e17f72".
Proof. vm_compute. reflexivity. Qed.

Example md5_message_digest :
  hexdigest (encode "message digest") = "f96b697d7cb7938d525a2f31aaf161d0".
Proof. vm_compute. reflexivity. Qed.

Example md5_two_blocks :
  hexdigest (encode
    "12345678901234567890123456789012345678901234567890123456789012345678901234567890")
  = "57edf4a22be3c955ac49da2e2107b67a".
Proof. vm_compute. reflexivity. Qed.

Lemma hex_digit_no_space n : isspace (hex_digit n) = false.
Proof.
  unfold hex_digit.
  assert (Z.to_nat (n mod 16) < 16)%nat as H
    by (pose proof (Z.mod_pos_bound n 16); lia).
  remember (Z.to_nat (n mod 16)) as k eqn:E. clear E.
  do 16 (destruct k as [|k]; [reflexivity|]). lia.
Qed.

(** A digest in hexadecimal holds no white space. *)
Lemma hexdigest_no_space msg : no_space (hexdigest msg).
Proof.
  unfold no_space, hexdigest. rewrite list_ascii_of_string_of_list_ascii.
  induction (digest msg) as [|b bs IH]; simpl; [constructor|].
  repeat constructor; auto using hex_digit_no_space.
Qed.

Lemma strip_hexdigest msg : strip (hexdigest msg) = hexdigest msg.
Proof. apply strip_no_space, hexdigest_no_space. Qed.

End MD5Facts.

(** ** json.dumps *)

Module JsonFacts.
Import Py Json PyFacts.

(** Induction on a value, its items included. *)
Section json_induction.

Variable P : json -> Prop.
Hypothesis Hnull : P JNull.
Hypothesis Hbool : forall b, P (JBool b).
Hypothesis Hint : forall n, P (JInt n).
Hypothesis Hfloat : forall r, P (JFloat r).
Hypothesis Hstr : forall s, P (JStr s).
Hypothesis Hbson : forall k, P (JBson k).
Hypothesis Harr : forall items, Forall P items -> P (JArr items).
Hypothesis Hobj : forall items, Forall (fun kv => P kv.2) items -> P (JObj items).

Fixpoint json_nested_ind (v : json) : P v :=
  match v with
  | JNull => Hnull
  | JBool b => Hbool b
  | JInt n => Hint n
  | JFloat r => Hfloat r
  | JStr s => Hstr s
  | JBson k => Hbson k
  | JArr items =>
      Harr items
        ((fix go (l : list json) : Forall P l :=
            match l with
            | [] => List.Forall_nil P
            | x :: rest =>
                @List.Forall_cons _ P x rest (json_nested_ind x) (go rest)
            end) items)
  | JObj items =>
      Hobj items
        ((fix go (l : list (string * json)) : Forall (fun kv => P kv.2) l :=
            match l with
            | [] => List.Forall_nil _
            | kv :: rest =>
                @List.Forall_cons _ (fun kv => P kv.2) kv rest
                                  (json_nested_ind kv.2) (go rest)
            end) items)
  end.

End json_induction.

#[global] Instance item_le_trans {A} : Transitive (@item_le A).
Proof. intros a b c. unfold item_le. apply str_le_trans. Qed.

#[global] Instance item_le_total {A} : Total (@item_le A).
Proof. intros a b. unfold item_le. apply str_le_total. Qed.

(** Distinct keys: a key has one value. *)
Lemma NoDup_keys_inj {A} (l : list (string * A)) a b :
  NoDup (l.*1) -> a ∈ l -> b ∈ l -> a.1 = b.1 -> a = b.
Proof.
  induction l as [|x l IH]; [by intros _ ?%elem_of_nil|].
  rewrite fmap_cons, NoDup_cons, !elem_of_cons.
  intros [Hx Hl] [->|Ha] [->|Hb] E; auto.
  - destruct Hx. rewrite E. by apply list_elem_of_fmap_2.
  - destruct Hx. rewrite <- E. by apply list_elem_of_fmap_2.
Qed.

(** Sorting the items of a dict forgets the order they were inserted in. *)
Lemma sort_items_Permutation {A} (l k : list (string * A)) :
  NoDup (l.*1) -> l ≡ₚ k -> sort_items l = sort_items k.
Proof.
  intros Hnd Hperm. unfold sort_items.
  apply (StronglySorted_unique_strong item_le).
  - intros a b Ha Hb Hab Hba.
    rewrite merge_sort_Permutation in Ha, Hb. rewrite <- Hperm in Hb.
    apply (NoDup_keys_inj l); auto.
    apply str_le_antisym; [exact Hab | exact Hba].
  - apply StronglySorted_merge_sort; apply _.
  - apply StronglySorted_merge_sort; apply _.
  - by rewrite !merge_sort_Permutation.
Qed.

(** [mapM] over a permutation fails on both sides or succeeds on both,
    with results that are a permutation of each other. *)
Lemma mapM_Permutation {A B} (f : A -> option B) (l k : list A) :
  l ≡ₚ k ->
  match mapM f l, mapM f k with
  | Some l', Some k' => l' ≡ₚ k'
  | None, None => True
  | _, _ => False
  end.
Proof.
  induction 1 as [|x l k _ IH|x y l|l k m _ IH1 _ IH2]; simpl.
  - done.
  - destruct (f x); simpl; [|done].
    destruct (mapM f l), (mapM f k); simpl; try done. by constructor.
  - destruct (f x), (f y); simpl; try done;
      destruct (mapM f l); simpl; try done. by constructor.
  - destruct (mapM f l), (mapM f k), (mapM f m); try done. by etrans.
Qed.

Lemma mapM_keys {A} (f : string * json -> option (string * A)) l l' :
  (forall kv kv', f kv = Some kv' -> kv'.1 = kv.1) ->
  mapM f l = Some l' -> l'.*1 = l.*1.
Proof.
  intros Hf H. apply mapM_Some in H.
  induction H as [|kv kv' l l' Hkv _ IH]; [done|].
  rewrite !fmap_cons, IH. f_equal. by apply Hf.
Qed.

Definition dump_item (kv : string * json) : option (string * string) :=
  match dumps kv.2 with
  | Some s => Some (kv.1, s)
  | None => None
  end.

Lemma dumps_obj items :
  dumps (JObj items) =
  match mapM dump_item items with
  | Some parts =>
      Some ("{" ++ join ", " (map render_item (sort_items parts)) ++ "}")%string
  | None => None
  end.
Proof. reflexivity. Qed.

Lemma dumps_arr items :
  dumps (JArr items) =
  match mapM dumps items with
  | Some parts => Some ("[" ++ join ", " parts ++ "]")%string
  | None => None
  end.
Proof. reflexivity. Qed.

Lemma mapM_Forall2_eq {A B C} (f : A -> option C) (g : B -> option C) l k :
  Forall2 (fun a b => f a = g b) l k -> mapM f l = mapM g k.
Proof.
  induction 1 as [|a b l k Hab _ IH]; [done|]. simpl. by rewrite Hab, IH.
Qed.

Lemma wf_arr items : wf (JArr items) = true -> Forall (fun v => wf v = true) items.
Proof.
  simpl. rewrite forallb_forall. intros H. apply Forall_forall. intros x Hx.
  apply H. by apply list_elem_of_In.
Qed.

Lemma wf_obj items :
  wf (JObj items) = true ->
  NoDup (items.*1) /\ Forall (fun kv => wf kv.2 = true) items.
Proof.
  simpl. intros [H1 H2]%andb_true_iff. split.
  - by apply bool_decide_eq_true in H1.
  - rewrite forallb_forall in H2. apply Forall_forall. intros x Hx.
    apply H2. by apply list_elem_of_In.
Qed.

(** The text is the same for two values that differ in key order only. *)
Lemma dumps_key_order v : forall v',
  wf v = true -> same_upto_key_order v v' -> dumps v = dumps v'.
Proof.
  induction v as [| | | | | |items IH|items IH] using json_nested_ind;
    intros v' Hwf Hsame; inversion Hsame; subst; try reflexivity.
  - (* lists *)
    rewrite !dumps_arr. apply wf_arr in Hwf.
    match goal with H : Forall2 same_upto_key_order _ _ |- _ => rename H into H2 end.
    assert (mapM dumps items = mapM dumps ys) as ->; [|done].
    apply mapM_Forall2_eq.
    clear Hsame. induction H2 as [|x y l k Hxy _ IH2]; [constructor|].
    apply Forall_cons in IH as [IHx IHl]. apply Forall_cons in Hwf as [Hx Hl].
    constructor; auto.
  - (* dicts *)
    rewrite !dumps_obj. apply wf_obj in Hwf as [Hnd Hwf].
    match goal with H : Forall2 _ items _ |- _ => rename H into H2 end.
    match goal with H : Permutation _ _ |- _ => rename H into Hp end.
    assert (mapM dump_item items = mapM dump_item ys) as E.
    { apply mapM_Forall2_eq. clear Hsame Hp Hnd.
      induction H2 as [|x y l k [Hk Hxy] _ IH2]; [constructor|].
      apply Forall_cons in IH as [IHx IHl]. apply Forall_cons in Hwf as [Hx Hl].
      constructor; auto. unfold dump_item. by rewrite Hk, (IHx y.2 Hx Hxy). }
    pose proof (mapM_Permutation dump_item ys zs Hp) as Hm.
    rewrite <- E in Hm.
    destruct (mapM dump_item items) as [parts|] eqn:Eparts;
      destruct (mapM dump_item zs) as [parts'|]; try done.
    rewrite (sort_items_Permutation parts parts'); auto.
    rewrite (mapM_keys dump_item items parts); auto.
    intros kv kv'. unfold dump_item. destruct (dumps kv.2); [|done].
    by intros [= <-].
Qed.

End JsonFacts.

(** ** The Change Detector *)

Module DetectorFacts.
Import Py Json Mongo Detector PyFacts MD5Facts JsonFacts.

(** The fingerprint a run computes from the answers of the store, and the
    connection attempts and pauses it makes on the way. *)
Definition fingerprint (mongo : nat -> connection) : option string :=
  match (get_mongodb_data_hash mongo (start Missing)).1 with
  | Ok current_hash => current_hash
  | Raise _ => None
  end.

Definition attempts (mongo : nat -> connection) : list event :=
  trace (get_mongodb_data_hash mongo (start Missing)).2.

Definition is_write (e : event) : bool :=
  match e with WriteHash _ => true | _ => false end.

(** The writes to [HASH_FILE] among the events of a run. *)
Definition writes (t : list event) : list event := List.filter is_write t.

Lemma hash_loop_uniform mongo retries :
  exists h evs,
    writes evs = [] /\
    forall s, hash_loop mongo retries s
              = (Ok h, State (hash_file s) (stdout s) (trace s ++ evs)).
Proof.
  induction retries as [|retry rest (h & evs & Hw & IH)].
  - exists None, []. split; [done|]. intros [???]. simpl. unfold ret.
    by rewrite app_nil_r.
  - simpl. destruct (try_hash (mongo retry)) as [data_hash|].
    + exists (Some data_hash), [Connect retry]. split; [done|]. by intros [???].
    + destruct (retry <? 2)%nat.
      * exists h, (Connect retry :: Sleep retry_delay :: evs). split; [done|].
        intros s. unfold bind, emit, sleep, emit, modify. simpl.
        rewrite IH. simpl. by rewrite <- !app_assoc.
      * exists None, [Connect retry]. split; [done|]. by intros [???].
Qed.

(** Computing the fingerprint reads nothing of the state and only adds its
    attempts to the trace. *)
Lemma get_mongodb_data_hash_spec mongo s :
  get_mongodb_data_hash mongo s
  = (Ok (fingerprint mongo),
     State (hash_file s) (stdout s) (trace s ++ attempts mongo)).
Proof.
  unfold fingerprint, attempts, get_mongodb_data_hash.
  destruct (hash_loop_uniform mongo (seq 0 max_retries)) as (h & evs & _ & H).
  by rewrite !H.
Qed.

Lemma attempts_no_write mongo : writes (attempts mongo) = [].
Proof.
  unfold attempts, get_mongodb_data_hash.
  destruct (hash_loop_uniform mongo (seq 0 max_retries)) as (h & evs & Hw & H).
  by rewrite H.
Qed.


(** What [has_data_changed] returns and leaves, case by case. *)
Lemma has_data_changed_spec mongo file :
  has_data_changed mongo (start file) =
  match fingerprint mongo with
  | None => (Ok false, State file "" (attempts mongo))
  | Some h =>
      match file with
      | Missing =>
          (Ok true, State (RegularFile h) "" (attempts mongo ++ [WriteHash h]))
      | RegularFile text =>
          if String.eqb h (strip text)
          then (Ok false, State file "" (attempts mongo))
          else (Ok true, State (RegularFile h) "" (attempts mongo ++ [WriteHash h]))
      | ReadOnly text =>
          if String.eqb h (strip text)
          then (Ok false, State file "" (attempts mongo))
          else (Raise (Error "PermissionError"), State file "" (attempts mongo))
      | Directory =>
          (Raise (Error "IsADirectoryError"), State file "" (attempts mongo))
      | Undecodable =>
          (Raise (Error "UnicodeDecodeError"), State file "" (attempts mongo))
      | Protected =>
          (Raise (Error "PermissionError"), State file "" (attempts mongo))
      | Uncreatable =>
          (Raise (Error "PermissionError"), State file "" (attempts mongo))
      end
  end.
Proof.
  unfold has_data_changed, bind. rewrite get_mongodb_data_hash_spec. simpl.
  destruct (fingerprint mongo) as [h|]; [|done].
  destruct file as [|text| | | |text|]; simpl; try done;
    unfold write_hash_file, ret; simpl;
    by destruct (String.eqb h (strip text)).
Qed.

(** A run of the script, case by case. *)
Lemma run_spec mongo file :
  run mongo file =
  match fingerprint mongo with
  | None => State file (line "NO_CHANGED") (attempts mongo)
  | Some h =>
      match file with
      | Missing =>
          State (RegularFile h) (line "YES_CHANGED") (attempts mongo ++ [WriteHash h])
      | RegularFile text =>
          if String.eqb h (strip text)
          then State file (line "NO_CHANGED") (attempts mongo)
          else State (RegularFile h) (line "YES_CHANGED")
                     (attempts mongo ++ [WriteHash h])
      | ReadOnly text =>
          if String.eqb h (strip text)
          then State file (line "NO_CHANGED") (attempts mongo)
          else State file (line "ERROR") (attempts mongo)
      | Directory | Undecodable | Protected | Uncreatable =>
          State file (line "ERROR") (attempts mongo)
      end
  end.
Proof.
  unfold run, main, try_except, bind. rewrite has_data_changed_spec.
  destruct (fingerprint mongo) as [h|]; [|done].
  destruct file as [|text| | | |text|]; try done;
    by destruct (String.eqb h (strip text)).
Qed.

Lemma unreachable_fingerprint mongo :
  (forall retry, (retry < max_retries)%nat -> mongo retry = Unreachable) ->
  fingerprint mongo = None
  /\ attempts mongo = [Connect 0; Sleep 2; Connect 1; Sleep 2; Connect 2].
Proof.
  intros H. unfold fingerprint, attempts, get_mongodb_data_hash, max_retries in *.
  simpl. unfold bind. simpl.
  rewrite (H 0%nat), (H 1%nat), (H 2%nat) by lia. done.
Qed.

(** A fingerprint is a digest in hexadecimal: stripping leaves it as it is. *)
Lemma try_hash_strip conn h : try_hash conn = Some h -> strip h = h.
Proof.
  unfold try_hash. destruct conn as [|c]; [done|].
  destruct (collect c DATABASES); [|done].
  destruct (dumps _); [|done]. intros [= <-]. apply strip_hexdigest.
Qed.

Lemma fingerprint_strip mongo h : fingerprint mongo = Some h -> strip h = h.
Proof.
  unfold fingerprint, get_mongodb_data_hash, max_retries. simpl. unfold bind. simpl.
  destruct (try_hash (mongo 0%nat)) eqn:E0; simpl.
  { intros [= <-]. eauto using try_hash_strip. }
  destruct (try_hash (mongo 1%nat)) eqn:E1; simpl.
  { intros [= <-]. eauto using try_hash_strip. }
  destruct (try_hash (mongo 2%nat)) eqn:E2; simpl; [|done].
  intros [= <-]. eauto using try_hash_strip.
Qed.

Lemma lines_distinct :
  NoDup [line "YES_CHANGED"; line "NO_CHANGED"; line "ERROR"].
Proof. apply (bool_decide_eq_true_1 _). vm_compute. reflexivity. Qed.

(** The store that never answers, with no fingerprint file: the run the
    claim C1 speaks of. *)
Definition never : nat -> connection := fun _ => Unreachable.

(** C1, counterexample.  The store is unreachable on every attempt, the
    three attempts are made and the retry count is exhausted; the script
    prints NO_CHANGED, and the token ERROR appears nowhere in its output. *)
Lemma unreachable_store_prints_no_changed :
  (forall retry, never retry = Unreachable)
  /\ trace (run never Missing) = [Connect 0; Sleep 2; Connect 1; Sleep 2; Connect 2]
  /\ stdout (run never Missing) = line "NO_CHANGED"
  /\ stdout (run never Missing) <> line "ERROR"
  /\ contains "ERROR" (stdout (run never Missing)) = false.
Proof. vm_compute. repeat split; discriminate. Qed.

(** C1, as amended.  When the store is unreachable on the three connection
    attempts, the script prints NO_CHANGED (after three attempts, two
    seconds apart) and leaves the fingerprint file as it is.  Whatever the
    store and the file, the script prints exactly one of the three lines
    YES_CHANGED, NO_CHANGED, ERROR, which are distinct, and it prints ERROR
    exactly when [has_data_changed] raises. *)
Theorem detector_unreachable_reports_no_change
    (mongo : nat -> connection) (file : path_state) :
  (forall retry, (retry < max_retries)%nat -> mongo retry = Unreachable) ->
  (stdout (run mongo file) = line "NO_CHANGED"
   /\ hash_file (run mongo file) = file
   /\ trace (run mongo file) = [Connect 0; Sleep 2; Connect 1; Sleep 2; Connect 2])
  /\ NoDup [line "YES_CHANGED"; line "NO_CHANGED"; line "ERROR"]
  /\ forall mongo' file',
       stdout (run mongo' file') ∈ [line "YES_CHANGED"; line "NO_CHANGED"; line "ERROR"]
       /\ (stdout (run mongo' file') = line "ERROR"
           <-> exists e s, has_data_changed mongo' (start file') = (Raise e, s)).
Proof.
  intros H. destruct (unreachable_fingerprint mongo H) as [Hf Ha].
  split; [|split; [apply lines_distinct|]].
  - rewrite run_spec, Hf. simpl. by rewrite Ha.
  - intros mongo' file'. rewrite run_spec, has_data_changed_spec.
    destruct (fingerprint mongo') as [h|]; simpl.
    + destruct file' as [|text| | | |text|]; simpl;
        try destruct (String.eqb h (strip text)); simpl;
        (split; [set_solver|]);
        first [ by (split; [eauto|])
              | split; [discriminate | by intros (e & s & [=])] ].
    + split; [set_solver|]. split; [discriminate|]. by intros (e & s & [=]).
Qed.

Lemma detector_unreachable_witness :
  stdout (run never Directory) = line "NO_CHANGED"
  /\ hash_file (run never Directory) = Directory.
Proof.
  destruct (detector_unreachable_reports_no_change never Directory) as [(H1 & H2 & _) _].
  - intros retry _. reflexivity.
  - split; [exact H1 | exact H2].
Defined.


(** *** The fingerprint and the order of keys and of records *)

(** Two lists of documents that hold, in the same order, documents equal up
    to the order of their keys. *)
Definition same_documents (docs docs' : list document) : Prop :=
  Forall2 (fun d d' => same_upto_key_order (JObj d) (JObj d')) docs docs'.

Definition wf_documents (docs : list document) : Prop :=
  Forall (fun d => wf (JObj d) = true) docs.

Record same_database (db db' : database) : Prop := {
  same_names : list_collection_names db = list_collection_names db';
  same_docs : forall coll,
    option_Forall2 same_documents (documents db coll) (documents db' coll);
  wf_docs : forall coll docs, documents db coll = Some docs -> wf_documents docs
}.

(** Two answers of the store that differ in the order of keys only. *)
Inductive same_answer : connection -> connection -> Prop :=
| same_unreachable : same_answer Unreachable Unreachable
| same_connected c c' :
    (forall database, same_database (c database) (c' database)) ->
    same_answer (Connected c) (Connected c').

Lemma strip_id_same d d' :
  same_upto_key_order (JObj d) (JObj d') ->
  same_upto_key_order (JObj (strip_id d)) (JObj (strip_id d')).
Proof.
  inversion 1 as [| | | | | | |xs ys zs H2 Hp]; subst.
  unfold strip_id. eapply same_obj.
  - apply (Forall2_filter _
             (fun kv : string * json => Is_true (negb (String.eqb kv.1 "_id")))
             (fun kv : string * json => Is_true (negb (String.eqb kv.1 "_id"))));
      [|exact H2].
    intros x y [Hk _]. by rewrite Hk.
  - by rewrite Hp.
Qed.

Lemma wf_obj_intro items :
  NoDup (items.*1) -> Forall (fun kv => wf kv.2 = true) items ->
  wf (JObj items) = true.
Proof.
  intros Hnd Hwf. simpl. apply andb_true_iff. split.
  - by apply bool_decide_eq_true.
  - apply forallb_forall. intros x Hx%list_elem_of_In.
    by apply (proj1 (Forall_forall _ _) Hwf).
Qed.

Lemma wf_arr_intro items :
  Forall (fun v => wf v = true) items -> wf (JArr items) = true.
Proof.
  intros Hwf. simpl. apply forallb_forall. intros x Hx%list_elem_of_In.
  by apply (proj1 (Forall_forall _ _) Hwf).
Qed.

Lemma strip_id_wf d : wf (JObj d) = true -> wf (JObj (strip_id d)) = true.
Proof.
  intros [Hnd Hwf]%wf_obj. unfold strip_id. apply wf_obj_intro.
  - eapply sublist_NoDup; [exact Hnd|]. apply fmap_sublist, sublist_filter.
  - apply Forall_forall. intros x [_ Hx]%list_elem_of_filter.
    by apply (proj1 (Forall_forall _ _) Hwf).
Qed.

(** One entry of [all_data]. *)
Definition entry (database collection : string) (docs : list document) : json :=
  JObj [("database", JStr database); ("collection", JStr collection);
        ("data", JArr (map JObj docs))].

Lemma entry_wf database collection docs :
  wf_documents docs -> wf (entry database collection docs) = true.
Proof.
  intros Hwf. apply wf_obj_intro.
  - apply (bool_decide_eq_true_1 _). vm_compute. reflexivity.
  - repeat constructor. simpl. apply wf_arr_intro, Forall_fmap.
    exact Hwf.
Qed.

Lemma entry_same database collection docs docs' :
  same_documents docs docs' ->
  same_upto_key_order (entry database collection docs)
                      (entry database collection docs').
Proof.
  intros H. eapply same_obj; [|reflexivity].
  repeat constructor; simpl. apply Forall2_fmap. exact H.
Qed.

Lemma find_no_id_same db db' coll :
  same_database db db' ->
  match find_no_id db coll, find_no_id db' coll with
  | Some docs, Some docs' => same_documents docs docs' /\ wf_documents docs
  | None, None => True
  | _, _ => False
  end.
Proof.
  intros [_ Hd Hwf]. unfold find_no_id. specialize (Hd coll). specialize (Hwf coll).
  destruct Hd as [docs docs' H|]; [|done]. split.
  - apply Forall2_fmap. eapply Forall2_impl; [exact H|]. apply strip_id_same.
  - apply Forall_fmap. eapply Forall_impl; [exact (Hwf docs eq_refl)|].
    apply strip_id_wf.
Qed.

Lemma get_latest_collection_same c c' database :
  same_database (c database) (c' database) ->
  get_latest_collection c database = get_latest_collection c' database.
Proof. intros [Hn _ _]. unfold get_latest_collection. by rewrite Hn. Qed.

Lemma collect_same c c' databases :
  (forall database, same_database (c database) (c' database)) ->
  match collect c databases, collect c' databases with
  | Some l, Some l' =>
      Forall2 same_upto_key_order l l' /\ Forall (fun v => wf v = true) l
  | None, None => True
  | _, _ => False
  end.
Proof.
  intros H. induction databases as [|database rest IH]; simpl.
  - split; constructor.
  - rewrite <- (get_latest_collection_same c c' database (H database)).
    destruct (get_latest_collection c database) as [latest|]; [|exact IH].
    pose proof (find_no_id_same _ _ latest (H database)) as Hf.
    destruct (find_no_id (c database) latest) as [docs|],
             (find_no_id (c' database) latest) as [docs'|]; try done.
    destruct Hf as [Hs Hw].
    destruct (collect c rest) as [l|], (collect c' rest) as [l'|]; try done.
    destruct IH as [IH1 IH2]. split.
    + constructor; [by apply entry_same | done].
    + constructor; [by apply entry_wf | done].
Qed.

Lemma try_hash_same a a' : same_answer a a' -> try_hash a = try_hash a'.
Proof.
  destruct 1 as [|c c' H]; [done|]. unfold try_hash.
  pose proof (collect_same c c' DATABASES H) as Hc.
  destruct (collect c DATABASES) as [l|], (collect c' DATABASES) as [l'|];
    try done.
  destruct Hc as [Hs Hw].
  by rewrite (dumps_key_order (JArr l) (JArr l') (wf_arr_intro l Hw) (same_arr l l' Hs)).
Qed.

(** C2, counterexample.  Two states of the store that hold the same two
    records in the current collection of BACHV_BB_STOCKS, returned in one
    order by the first and in the other order by the second: the two
    fingerprints differ. *)
Definition fpt : document :=
  [("_id", JBson "ObjectId"); ("symbol", JStr "FPT"); ("prediction", JInt 1)].

Definition vnm : document :=
  [("_id", JBson "ObjectId"); ("symbol", JStr "VNM"); ("prediction", JInt 0)].

Definition store_of (docs : list document) : client :=
  fun database =>
    if String.eqb database "BACHV_BB_STOCKS"
    then Database (Some ["Net_Data_20250101"]) (fun _ => Some docs)
    else Database (Some []) (fun _ => Some []).

Lemma record_order_changes_fingerprint :
  [fpt; vnm] ≡ₚ [vnm; fpt]
  /\ fingerprint (fun _ => Connected (store_of [fpt; vnm]))
     = Some "fca9ce197af0e4765e93cb260e98f48c"
  /\ fingerprint (fun _ => Connected (store_of [vnm; fpt]))
     = Some "855242635e29cfb1a144bb87e6dca086"
  /\ fingerprint (fun _ => Connected (store_of [fpt; vnm]))
     <> fingerprint (fun _ => Connected (store_of [vnm; fpt])).
Proof.
  split; [apply Permutation_swap|].
  assert (fingerprint (fun _ => Connected (store_of [fpt; vnm]))
          = Some "fca9ce197af0e4765e93cb260e98f48c") as E1
    by (vm_compute; reflexivity).
  assert (fingerprint (fun _ => Connected (store_of [vnm; fpt]))
          = Some "855242635e29cfb1a144bb87e6dca086") as E2
    by (vm_compute; reflexivity).
  rewrite E1, E2. repeat split. discriminate.
Qed.

(** C2, as amended.  When, on every connection attempt, two stores give the
    same collection names and, for every collection, the same documents in
    the same order up to the order of the keys inside each document (at
    every depth), the script computes the same fingerprint and prints the
    same line.  The order in which a collection returns its documents is
    part of the fingerprint. *)
Theorem fingerprint_ignores_key_order
    (mongo mongo' : nat -> connection) (file : path_state) :
  (forall retry, same_answer (mongo retry) (mongo' retry)) ->
  fingerprint mongo = fingerprint mongo'
  /\ stdout (run mongo file) = stdout (run mongo' file)
  /\ hash_file (run mongo file) = hash_file (run mongo' file).
Proof.
  intros H.
  assert (fingerprint mongo = fingerprint mongo') as E.
  { unfold fingerprint, get_mongodb_data_hash, max_retries. simpl. unfold bind.
    simpl. rewrite <- !(try_hash_same _ _ (H _)).
    destruct (try_hash (mongo 0%nat)); [done|]. simpl.
    destruct (try_hash (mongo 1%nat)); [done|]. simpl.
    by destruct (try_hash (mongo 2%nat)). }
  split; [exact E|]. rewrite !run_spec, <- E.
  destruct (fingerprint mongo) as [h|]; [|done].
  destruct file as [|text| | | |text|]; try done;
    by destruct (String.eqb h (strip text)).
Qed.

(** The same two records with their keys in two orders. *)
Definition fpt' : document :=
  [("prediction", JInt 1); ("_id", JBson "ObjectId"); ("symbol", JStr "FPT")].

Lemma fpt_same : same_upto_key_order (JObj fpt) (JObj fpt').
Proof.
  eapply same_obj with (ys := fpt).
  - repeat constructor.
  - unfold fpt, fpt'. apply Permutation_sym.
    apply Permutation_cons_app with (l1 := [_; _]) (l2 := []). reflexivity.
Qed.

Lemma fingerprint_key_order_witness :
  fingerprint (fun _ => Connected (store_of [fpt; vnm]))
  = fingerprint (fun _ => Connected (store_of [fpt'; vnm])).
Proof.
  apply (fingerprint_ignores_key_order
           (fun _ => Connected (store_of [fpt; vnm]))
           (fun _ => Connected (store_of [fpt'; vnm])) Missing).
  intros _. constructor. intros database. unfold store_of.
  destruct (String.eqb database "BACHV_BB_STOCKS").
  - split; simpl; [done| |].
    + intros _. constructor. constructor; [apply fpt_same|].
      constructor; [|constructor].
      eapply same_obj with (ys := vnm); [repeat constructor | reflexivity].
    + intros _ docs [= <-]. repeat constructor.
  - split; simpl; [done| |].
    + intros _. constructor. constructor.
    + intros _ docs [= <-]. constructor.
Defined.

(** *** The first run and the run after it *)






End DetectorFacts.

(** ** The choice of the latest snapshot *)

Module ApiFacts.
Import Py Api.

#[local] Arguments path_join : simpl never.

Lemma max_from_elem {A} (key : A -> Z) items : forall best,
  max_from key best items ∈ best :: items.
Proof.
  induction items as [|x rest IH]; intros best; simpl.
  - by apply list_elem_of_singleton.
  - pose proof (IH (if key best <? key x then x else best)) as H.
    rewrite !elem_of_cons in *. destruct (key best <? key x); tauto.
Qed.

Lemma max_from_ge {A} (key : A -> Z) items : forall best x,
  x ∈ best :: items -> key x <= key (max_from key best items).
Proof.
  induction items as [|y rest IH]; intros best x Hx; simpl.
  - apply list_elem_of_singleton in Hx as ->. lia.
  - destruct (Z.ltb_spec (key best) (key y)).
    + apply elem_of_cons in Hx as [->|Hx].
      * etrans; [|apply (IH y y)]; [lia | set_solver].
      * apply IH. set_solver.
    + apply elem_of_cons in Hx as [->|Hx]; [apply IH; set_solver|].
      apply elem_of_cons in Hx as [->|Hx].
      * etrans; [|apply (IH best best)]; [lia | set_solver].
      * apply IH. set_solver.
Qed.

(** [max] returns an item of the list that no item exceeds. *)
Lemma py_max_spec {A} (key : A -> Z) items :
  items <> [] ->
  exists m, py_max key items = Some m
            /\ m ∈ items
            /\ forall x, x ∈ items -> key x <= key m.
Proof.
  destruct items as [|x rest]; [done|]. intros _.
  exists (max_from key x rest). split; [done|].
  split; [apply max_from_elem | intros y; apply max_from_ge].
Qed.





Definition snap (name : string) (ctime : Z) : dirent :=
  Dirent name true ctime true true.



End ApiFacts.

(** ** The Data Refresher *)

Module RefresherFacts.
Import Py Json Mongo Refresher PyFacts.

#[local] Arguments path_join : simpl never.

(** What the constructor of [NetworkDataFetch] returns, and what it does on
    the way. *)
Definition init_outcome (mongo : nat -> connection) : result NetworkDataFetch :=
  (init mongo (State ∅ 0%nat [])).1.

Definition init_events (mongo : nat -> connection) : list event :=
  trace (init mongo (State ∅ 0%nat [])).2.

Lemma init_loop_uniform mongo retries :
  exists r evs,
    forall s, init_loop mongo retries s
              = (r, State (files s) (clock s) (trace s ++ evs)).
Proof.
  induction retries as [|retry rest (r & evs & IH)].
  - exists (Ok (Self None)), []. intros [???]. simpl. unfold ret.
    by rewrite app_nil_r.
  - simpl. destruct (mongo retry) as [|c].
    + destruct (retry <? 2)%nat.
      * exists r, (Connect retry :: Log WARNING (ConnectionError (retry + 1))
                     :: Log INFO (Reconnecting retry_delay)
                     :: Sleep retry_delay :: evs).
        intros s. unfold bind, log, sleep, emit, modify. simpl.
        rewrite IH. simpl. by rewrite <- !app_assoc.
      * exists (Raise ApiPredictionException), [Connect retry]. by intros [???].
    + exists (Ok (Self (Some c))), [Connect retry]. by intros [???].
Qed.

Lemma init_spec mongo s :
  init mongo s
  = (init_outcome mongo,
     State (files s) (clock s) (trace s ++ init_events mongo)).
Proof.
  unfold init_outcome, init_events, init.
  destruct (init_loop_uniform mongo (seq 0 max_retries)) as (r & evs & H).
  by rewrite !H.
Qed.

(** The constructor returns a connected instance when one of the three
    attempts reaches the store, and raises otherwise. *)
Lemma init_outcome_cases mongo :
  (exists retry c, (retry < max_retries)%nat /\ mongo retry = Connected c
                   /\ init_outcome mongo = Ok (Self (Some c)))
  \/ ((forall retry, (retry < max_retries)%nat -> mongo retry = Unreachable)
      /\ init_outcome mongo = Raise ApiPredictionException).
Proof.
  unfold init_outcome, init, max_retries. simpl. unfold bind. simpl.
  destruct (mongo 0%nat) as [|c0] eqn:E0; [|left; exists 0%nat, c0; auto].
  simpl. destruct (mongo 1%nat) as [|c1] eqn:E1; [|left; exists 1%nat, c1; auto].
  simpl. destruct (mongo 2%nat) as [|c2] eqn:E2; [|left; exists 2%nat, c2; auto].
  right. split; [|done]. intros retry Hr.
  destruct retry as [|[|[|?]]]; auto; lia.
Qed.

(** *** One database *)

(** What the store holds for one database, as [fetch_and_save_data] meets
    it. *)
Inductive outcome :=
| ListingFails                                  (* the driver raises on the names *)
| NoMatch (names : list string)                 (* no name starts with Net_Data_ *)
| ReadFails (collection : string)               (* the driver raises on the documents *)
| NoRecords (collection : string)               (* the current collection is empty *)
| Records (collection : string) (docs : list document).

Definition outcome_of (db : database) : outcome :=
  match list_collection_names db with
  | None => ListingFails
  | Some names =>
      match latest_of (net_data names) with
      | None => NoMatch names
      | Some collection =>
          match find_no_id db collection with
          | None => ReadFails collection
          | Some [] => NoRecords collection
          | Some docs => Records collection docs
          end
      end
  end.

Definition snapshot_path (db time : string) : string :=
  output_file_of OUTPUT_DIR FILENAME_PREFIX db time.

(** The events of one pass of the loop, from the content of the one
    database it is about and the time of the pass. *)
Definition report (c : client) (db time : string) : list event :=
  [Log INFO (Processing db); Makedirs (path_join OUTPUT_DIR (sub_dir_of db))] ++
  match outcome_of (c db) with
  | ListingFails => [Log ERROR (ErrorProcessing db)]
  | NoMatch names =>
      [Log WARNING (NoCollections db); Log WARNING (Available (Some names));
       Log ERROR (NoPrefix db); Log ERROR (Failed db)]
  | ReadFails collection =>
      [Log INFO (LatestCollection db collection); Log ERROR (ErrorProcessing db)]
  | NoRecords collection =>
      [Log INFO (LatestCollection db collection); Log INFO (Found 0 db);
       Log WARNING (NoData db); Log ERROR (Failed db)]
  | Records collection docs =>
      [Log INFO (LatestCollection db collection);
       Log INFO (Found (length docs) db);
       ToCsv (snapshot_path db time) docs;
       Log INFO (Saved db (snapshot_path db time));
       Log INFO (Fetched db)]
  end.

Definition written (c : client) (db time : string)
    (fs : gmap string (list document)) : gmap string (list document) :=
  match outcome_of (c db) with
  | Records _ docs => <[snapshot_path db time := docs]> fs
  | _ => fs
  end.

Lemma merge_sort_nil_inv (l : list string) : Py.sorted l = [] -> l = [].
Proof.
  unfold Py.sorted. intros H. apply Permutation_nil_r.
  rewrite <- H. symmetry. apply merge_sort_Permutation.
Qed.

Lemma latest_of_None l : latest_of l = None -> l = [].
Proof.
  unfold latest_of, sorted_reverse. intros H. apply merge_sort_nil_inv.
  destruct (Py.sorted l) as [|x k] eqn:E; [done|].
  simpl in H. destruct (rev k ++ [x]) eqn:E'; [|done].
  by apply app_eq_nil in E' as [_ ?].
Qed.

(** A path whose last component is not empty is not empty, and so is true
    as a condition. *)
Lemma path_join_truthy (a b : string) :
  (b =? "")%string = false -> (path_join a b =? "")%string = false.
Proof.
  intros Hb. unfold path_join.
  destruct (startswith b "/"); [done|].
  destruct (String.eqb a "" || endswith a "/"); by destruct a.
Qed.

(** One pass of the loop never raises, advances the clock by one, and does
    to the trace and to the files what the content of its own database
    says. *)
Lemma process_spec now c db s :
  process now (Self (Some c)) db s
  = (Ok tt,
     State (written c db (now (clock s)) (files s))
           (Datatypes.S (clock s))
           (trace s ++ report c db (now (clock s)))).
Proof.
  destruct s as [fs k t].
  unfold process, fetch_and_save_data, get_latest_collection,
    fetch_data_from_mongodb, save_to_csv, report, written, outcome_of,
    snapshot_path, output_file_of.
  unfold try_except, bind, log, emit, modify, strftime_now, get_db, driver,
    ret, raise. simpl.
  destruct (list_collection_names (c db)) as [names|]; simpl;
    [|by rewrite <- !app_assoc].
  destruct (net_data names) as [|x l] eqn:En; simpl.
  { by rewrite <- !app_assoc. }
  destruct (latest_of (x :: l)) as [collection|] eqn:El;
    [|by apply latest_of_None in El].
  simpl. destruct (find_no_id (c db) collection) as [docs|]; simpl;
    [|by rewrite <- !app_assoc].
  destruct docs as [|d docs]; simpl; [by rewrite <- !app_assoc|].
  rewrite path_join_truthy; [|done]. simpl. by rewrite <- !app_assoc.
Qed.

(** *** The loop over the databases *)

Fixpoint reports (c : client) (now : nat -> string) (k : nat)
    (dbs : list string) : list event :=
  match dbs with
  | [] => []
  | db :: rest => report c db (now k) ++ reports c now (Datatypes.S k) rest
  end.

Fixpoint files_after (c : client) (now : nat -> string) (k : nat)
    (dbs : list string) (fs : gmap string (list document))
  : gmap string (list document) :=
  match dbs with
  | [] => fs
  | db :: rest => files_after c now (Datatypes.S k) rest (written c db (now k) fs)
  end.

Lemma for_each_spec now c dbs : forall s,
  for_each now (Self (Some c)) dbs s
  = (Ok tt,
     State (files_after c now (clock s) dbs (files s))
           (clock s + length dbs)%nat
           (trace s ++ reports c now (clock s) dbs)).
Proof.
  induction dbs as [|db rest IH]; intros s.
  - destruct s. simpl. unfold ret. by rewrite app_nil_r, Nat.add_0_r.
  - simpl. unfold bind. rewrite process_spec, IH. simpl.
    by rewrite <- app_assoc, Nat.add_succ_r.
Qed.

(** The whole run, when the constructor connects to [c]. *)
Lemma main_with_connected mongo now c dbs fs :
  init_outcome mongo = Ok (Self (Some c)) ->
  main_with mongo now dbs (State fs 0%nat [])
  = (Ok tt,
     State (files_after c now 0 dbs fs) (length dbs)
           ([Log INFO Starting] ++ init_events mongo
              ++ reports c now 0 dbs ++ [Log INFO Completed])).
Proof.
  intros Hc. unfold main_with, bind, log, emit, modify. simpl.
  rewrite init_spec, Hc, for_each_spec. simpl.
  by rewrite <- !app_assoc.
Qed.

(** The whole run, when the constructor raises. *)
Lemma main_with_unreachable mongo now dbs fs e :
  init_outcome mongo = Raise e ->
  main_with mongo now dbs (State fs 0%nat [])
  = (Raise e, State fs 0%nat ([Log INFO Starting] ++ init_events mongo)).
Proof.
  intros Hc. unfold main_with, bind, log, emit, modify. simpl.
  by rewrite init_spec, Hc.
Qed.

(** The exit status of the script is 0 exactly when one of the three
    connection attempts of the constructor succeeds, and 1 otherwise. *)
Lemma exit_status_connected mongo now dbs fs :
  let status := exit_status (main_with mongo now dbs (State fs 0%nat [])).1 in
  (status = 0 \/ status = 1)
  /\ (status = 0 <->
      exists retry c, (retry < max_retries)%nat /\ mongo retry = Connected c).
Proof.
  simpl. destruct (init_outcome_cases mongo) as [(retry & c & Hr & Hm & Hi)|[Hu Hi]].
  - rewrite (main_with_connected mongo now c dbs fs Hi). simpl.
    split; [auto|]. split; [eauto|done].
  - rewrite (main_with_unreachable mongo now dbs fs _ Hi). simpl.
    split; [auto|]. split; [done|].
    intros (retry & c & Hr & Hm). by rewrite (Hu retry Hr) in Hm.
Qed.



Ltac in_list :=
  solve [repeat first [apply list_elem_of_here | apply list_elem_of_further]].

Definition failed (o : outcome) : bool :=
  match o with NoMatch _ | NoRecords _ => true | _ => false end.

(** The events of the constructor: attempts, pauses and their two log
    lines. *)
Definition of_init (e : event) : Prop :=
  match e with
  | Connect _ | Sleep _
  | Log WARNING (ConnectionError _) | Log INFO (Reconnecting _) => True
  | _ => False
  end.

Lemma init_events_of_init mongo : Forall of_init (init_events mongo).
Proof.
  unfold init_events, init, max_retries. simpl. unfold bind. simpl.
  destruct (mongo 0%nat); simpl; [|by repeat constructor].
  destruct (mongo 1%nat); simpl; [|by repeat constructor].
  destruct (mongo 2%nat); simpl; by repeat constructor.
Qed.

Lemma report_in_reports c now dbs : forall k i db e,
  dbs !! i = Some db -> e ∈ report c db (now (k + i)%nat) ->
  e ∈ reports c now k dbs.
Proof.
  induction dbs as [|d rest IH]; intros k i db e Hi He; [done|].
  cbn [reports]. apply elem_of_app. destruct i as [|i]; simpl in Hi.
  - injection Hi as ->. left. by rewrite Nat.add_0_r in He.
  - right. apply (IH (Datatypes.S k) i db); [done|].
    by rewrite Nat.add_succ_comm.
Qed.

Lemma reports_inv c now dbs : forall k e,
  e ∈ reports c now k dbs ->
  exists i db, dbs !! i = Some db /\ e ∈ report c db (now (k + i)%nat).
Proof.
  induction dbs as [|d rest IH]; intros k e He; cbn [reports] in He.
  - by apply elem_of_nil in He.
  - apply elem_of_app in He as [He|He].
    + exists 0%nat, d. by rewrite Nat.add_0_r.
    + destruct (IH _ _ He) as (i & db & Hi & Hr).
      exists (Datatypes.S i), db. split; [done|]. by rewrite <- Nat.add_succ_comm.
Qed.

Lemma written_mono c db time fs p :
  is_Some (fs !! p) -> is_Some (written c db time fs !! p).
Proof.
  unfold written. destruct (outcome_of (c db)); auto.
  intros H. destruct (decide (snapshot_path db time = p)) as [->|Hne].
  - rewrite lookup_insert_eq. eauto.
  - by rewrite lookup_insert_ne.
Qed.

Lemma files_after_mono c now dbs : forall k fs p,
  is_Some (fs !! p) -> is_Some (files_after c now k dbs fs !! p).
Proof.
  induction dbs as [|d rest IH]; intros k fs p H; [done|].
  cbn [files_after]. by apply IH, written_mono.
Qed.

Lemma files_after_records c now dbs : forall k fs i db collection docs,
  dbs !! i = Some db -> outcome_of (c db) = Records collection docs ->
  is_Some (files_after c now k dbs fs !! snapshot_path db (now (k + i)%nat)).
Proof.
  induction dbs as [|d rest IH]; intros k fs i db collection docs Hi Ho; [done|].
  cbn [files_after]. destruct i as [|i]; simpl in Hi.
  - injection Hi as ->. apply files_after_mono. unfold written. rewrite Ho.
    rewrite Nat.add_0_r, lookup_insert_eq. eauto.
  - rewrite <- Nat.add_succ_comm. by eapply IH.
Qed.

Lemma elem_of_run mongo e l r :
  Forall of_init (init_events mongo) -> ~ of_init e ->
  e <> Log INFO Starting -> e <> Log INFO Completed ->
  e ∈ [Log INFO Starting] ++ init_events mongo ++ l ++ r :: [] ->
  r = Log INFO Completed -> e ∈ l.
Proof.
  intros Hinit Hne Hs Hc He ->.
  rewrite !elem_of_app, !elem_of_cons, !elem_of_nil in He.
  destruct He as [[?|[]]|[He|[He|[?|[]]]]]; try done.
  destruct Hne. by apply (proj1 (Forall_forall _ _) Hinit).
Qed.

(** C6.  For any list of databases, once the constructor has connected:
    the run ends normally; every database of the list is processed; a
    database none of whose collections has the prefix, or whose current
    collection is empty, is reported as failed, under its own name; a
    database whose current collection holds records has them written to a
    snapshot file, which is there at the end, whatever the other databases
    hold.  A failure is reported, and a file is written, only for a
    database of the list whose own content says so. *)
Theorem per_database_failures_are_isolated
    (mongo : nat -> connection) (now : nat -> string)
    (fs : gmap string (list document)) (c : client) (databases : list string) :
  init_outcome mongo = Ok (Self (Some c)) ->
  let r := main_with mongo now databases (State fs 0%nat []) in
  r.1 = Ok tt
  /\ (forall i db, databases !! i = Some db ->
        Log INFO (Processing db) ∈ trace r.2
        /\ match outcome_of (c db) with
           | NoMatch _ =>
               Log ERROR (NoPrefix db) ∈ trace r.2
               /\ Log ERROR (Failed db) ∈ trace r.2
           | NoRecords _ =>
               Log WARNING (NoData db) ∈ trace r.2
               /\ Log ERROR (Failed db) ∈ trace r.2
           | Records _ docs =>
               ToCsv (snapshot_path db (now i)) docs ∈ trace r.2
               /\ is_Some (files r.2 !! snapshot_path db (now i))
               /\ Log INFO (Fetched db) ∈ trace r.2
           | ListingFails | ReadFails _ =>
               Log ERROR (ErrorProcessing db) ∈ trace r.2
           end)
  /\ (forall db, Log ERROR (Failed db) ∈ trace r.2 ->
        db ∈ databases /\ failed (outcome_of (c db)) = true)
  /\ (forall path docs, ToCsv path docs ∈ trace r.2 ->
        exists i db collection,
          databases !! i = Some db
          /\ outcome_of (c db) = Records collection docs
          /\ path = snapshot_path db (now i)).
Proof.
  intros Hc. simpl. rewrite (main_with_connected mongo now c databases fs Hc).
  simpl. split; [done|].
  pose proof (init_events_of_init mongo) as Hinit.
  split; [|split].
  - intros i db Hi.
    assert (forall e, e ∈ report c db (now i) ->
              e ∈ Log INFO Starting
                  :: init_events mongo ++ reports c now 0 databases
                  ++ [Log INFO Completed]) as Hin.
    { intros e He. rewrite elem_of_cons, !elem_of_app. right. right. left.
      by apply (report_in_reports c now databases 0%nat i db). }
    split; [apply Hin; unfold report; simpl; in_list|].
    destruct (outcome_of (c db)) as [|names|coll|coll|coll docs] eqn:Ho.
    + apply Hin. unfold report; rewrite Ho; simpl; in_list.
    + split; apply Hin; unfold report; rewrite Ho; simpl; in_list.
    + apply Hin. unfold report; rewrite Ho; simpl; in_list.
    + split; apply Hin; unfold report; rewrite Ho; simpl; in_list.
    + split; [|split]; try (apply Hin; unfold report; rewrite Ho; simpl; in_list).
      by apply (files_after_records c now databases 0%nat fs i db coll docs).
  - intros db He.
    apply (elem_of_run mongo _ (reports c now 0 databases)) in He; try done;
      [|by intros []].
    apply reports_inv in He as (i & db' & Hi & He).
    unfold report in He. apply elem_of_app in He as [He|He].
    { rewrite !elem_of_cons, elem_of_nil in He. by destruct He as [?|[?|[]]]. }
    destruct (outcome_of (c db')) eqn:Ho;
      rewrite ?elem_of_cons, ?elem_of_nil in He;
      repeat (destruct He as [He|He]; try done);
      injection He as ->; rewrite Ho; split; try done;
      by eapply list_elem_of_lookup_2.
  - intros path docs He.
    apply (elem_of_run mongo _ (reports c now 0 databases)) in He; try done;
      [|by intros []].
    apply reports_inv in He as (i & db & Hi & He).
    unfold report in He. apply elem_of_app in He as [He|He].
    { rewrite !elem_of_cons, elem_of_nil in He. by destruct He as [?|[?|[]]]. }
    destruct (outcome_of (c db)) eqn:Ho;
      rewrite ?elem_of_cons, ?elem_of_nil in He;
      repeat (destruct He as [He|He]; try done).
    injection He as -> ->. eauto 10.
Qed.

(** A store in which BACHV_BB_STOCKS has no collection with the prefix and
    BACHV_UD_STOCKS has one, with two records. *)
Definition half_store : client :=
  fun database =>
    if String.eqb database "BACHV_UD_STOCKS"
    then Database (Some ["Net_Data_20250101"; "archive"])
                  (fun _ => Some [[("symbol", JStr "FPT")]; [("symbol", JStr "VNM")]])
    else Database (Some ["archive"]) (fun _ => Some []).

Lemma per_database_witness :
  let r := main_with (fun _ => Connected half_store) (fun _ => "20250102_030405")
                     DATABASES (State ∅ 0%nat []) in
  Log ERROR (Failed "BACHV_BB_STOCKS") ∈ trace r.2
  /\ is_Some (files r.2 !! "Get_Data/UD/mongodb_data_20250102_030405.csv").
Proof.
  destruct (per_database_failures_are_isolated
              (fun _ => Connected half_store) (fun _ => "20250102_030405")
              ∅ half_store DATABASES eq_refl) as (_ & H & _).
  split.
  - exact (proj2 (proj2 (H 0%nat "BACHV_BB_STOCKS" eq_refl))).
  - exact (proj1 (proj2 (proj2 (H 1%nat "BACHV_UD_STOCKS" eq_refl)))).
Defined.

End RefresherFacts.

(** ** The Supervisor, over any operating system *)

Module SupervisorFacts.
Import Py Supervisor.

#[local] Arguments contains : simpl never.

(** A computation keeps an invariant of the state, whether it returns or
    raises. *)
Definition preserves {St A} (I : St -> Prop) (m : M St A) : Prop :=
  forall s, I s -> I (m s).2.

Lemma preserves_ret {St A} (I : St -> Prop) (a : A) : preserves I (ret a).
Proof. by intros s. Qed.

Lemma preserves_raise {St A} (I : St -> Prop) e : preserves I (@raise St A e).
Proof. by intros s. Qed.

Lemma preserves_get {St} (I : St -> Prop) : preserves I get.
Proof. by intros s. Qed.

Lemma preserves_bind {St A B} (I : St -> Prop) (m : M St A) (k : A -> M St B) :
  preserves I m -> (forall a, preserves I (k a)) -> preserves I (bind m k).
Proof.
  intros Hm Hk s Hs. unfold bind. specialize (Hm s Hs).
  destruct (m s) as [[a|e] s']; [by apply Hk | done].
Qed.

Lemma preserves_try_except {St A} (I : St -> Prop) (body : M St A) handles handler :
  preserves I body -> (forall e, preserves I (handler e)) ->
  preserves I (try_except body handles handler).
Proof.
  intros Hb Hh s Hs. unfold try_except. specialize (Hb s Hs).
  destruct (body s) as [[a|e] s']; [done|].
  destruct (handles e); [by apply Hh | done].
Qed.

Lemma preserves_try_except2 {St A} (I : St -> Prop) (body : M St A)
    handles1 handler1 handles2 handler2 :
  preserves I body ->
  (forall e, preserves I (handler1 e)) -> (forall e, preserves I (handler2 e)) ->
  preserves I (try_except2 body handles1 handler1 handles2 handler2).
Proof.
  intros Hb H1 H2 s Hs. unfold try_except2. specialize (Hb s Hs).
  destruct (body s) as [[a|e] s']; [done|].
  destruct (handles1 e); [by apply H1|].
  destruct (handles2 e); [by apply H2 | done].
Qed.

Lemma preserves_for_in {St J A} (I : St -> Prop) (body : J -> M St (flow A)) items :
  (forall i, preserves I (body i)) -> preserves I (for_in body items).
Proof.
  intros Hb. induction items as [|i rest IH]; intros s Hs; [done|].
  simpl. specialize (Hb i s Hs).
  destruct (body i s) as [[[|a]|e] s']; [by apply IH | done | done].
Qed.

Section Generic.

Context {W : Type} (os : OS W).

Local Abbreviation state := (Supervisor.state (W := W)).

(** An invariant that says nothing of the world nor of the variable
    [process] survives any call whose event it accepts. *)
Definition stable (I : option handle -> list event -> Prop) (s : state) : Prop :=
  I (api_process s) (trace s).

Lemma preserves_call {A} I (e : event) (op : W -> result A * W) :
  (forall p t, I p t -> I p (t ++ [e])) ->
  preserves (stable I) (call e op).
Proof.
  intros He s Hs. unfold call. destruct (op (world s)) as [r w]. simpl.
  by apply He.
Qed.

Lemma preserves_set_process I p : preserves (stable I) (set_process p).
Proof. by intros s. Qed.

(** The Supervisor has adopted a server it did not start: it holds no
    handle, and has neither started, polled nor terminated the server. *)
Definition hands_off (e : event) : Prop :=
  match e with
  | Popen script => script <> "API.py"
  | Poll _ | Terminate _ => False
  | _ => True
  end.

Definition adopted (p : option handle) (t : list event) : Prop :=
  p = None /\ Forall hands_off t.

Lemma adopted_event e : hands_off e -> forall p t, adopted p t -> adopted p (t ++ [e]).
Proof.
  intros He p t [Hp Ht]. split; [done|]. apply Forall_app. split; [done|].
  by constructor.
Qed.

Ltac keep1 :=
  lazymatch goal with
  | |- preserves _ (ret _) => apply preserves_ret
  | |- preserves _ (raise _) => apply preserves_raise
  | |- preserves _ get => apply preserves_get
  | |- preserves _ (set_process _) => apply preserves_set_process
  | |- preserves _ (call _ _) => apply preserves_call; apply adopted_event; done
  | |- preserves _ (bind _ _) => apply preserves_bind; [|intros ?]
  | |- preserves _ (try_except _ _ _) => apply preserves_try_except; [|intros ?]
  | |- preserves _ (for_in _ _) => apply preserves_for_in; intros ?
  | |- preserves _ (if ?b then _ else _) => destruct b
  end.

Ltac keeps := repeat keep1.

Lemma retry_or_stop_adopted retry :
  preserves (stable adopted) (retry_or_stop os retry).
Proof. unfold retry_or_stop, sleep. keeps. Qed.

Lemma the_process_adopted : preserves (stable adopted) the_process.
Proof.
  unfold the_process. keeps. destruct (process _); keeps.
Qed.

Lemma kill_process_adopted : preserves (stable adopted) (kill_process os).
Proof.
  unfold kill_process. apply preserves_bind; [apply the_process_adopted|].
  intros p. keeps.
Qed.

Lemma communicate_process_adopted timeout :
  preserves (stable adopted) (communicate_process os timeout).
Proof.
  unfold communicate_process. apply preserves_bind; [apply the_process_adopted|].
  intros p. keeps.
Qed.

Ltac keeps_all :=
  repeat first
    [ apply communicate_process_adopted | apply kill_process_adopted
    | apply retry_or_stop_adopted
    | keep1 ].

Lemma check_mongodb_changes_adopted :
  preserves (stable adopted) (check_mongodb_changes os).
Proof.
  unfold check_mongodb_changes, check_attempt, popen_process. keeps_all.
Qed.

Lemma run_get_mongo_data_adopted :
  preserves (stable adopted) (run_get_mongo_data os).
Proof.
  unfold run_get_mongo_data, fetch_attempt, popen_process. keeps_all.
Qed.

Lemma restart_if_stopped_adopted :
  preserves (stable adopted) (restart_if_stopped os).
Proof.
  intros s [Hp Ht]. unfold restart_if_stopped, bind, get. simpl.
  rewrite Hp. by split.
Qed.

Lemma terminate_api_adopted : preserves (stable adopted) (terminate_api os).
Proof.
  intros s [Hp Ht]. unfold terminate_api, bind, get. simpl.
  rewrite Hp. by split.
Qed.

Lemma iteration_adopted : preserves (stable adopted) (iteration os).
Proof.
  unfold iteration, sleep, check_and_refresh.
  repeat first
    [ apply restart_if_stopped_adopted | apply check_mongodb_changes_adopted
    | apply run_get_mongo_data_adopted | keep1 ].
Qed.

Lemma while_true_adopted fuel : preserves (stable adopted) (while_true os fuel).
Proof.
  induction fuel as [|fuel IH]; simpl; keeps; [apply iteration_adopted | apply IH].
Qed.

Lemma get_api_server_pid_adopted :
  preserves (stable adopted) (get_api_server_pid os).
Proof. unfold get_api_server_pid. keeps. Qed.

(** C10.  When the probe at startup finds the port accepting connections
    ([connect_ex] returns 0), then, however long the Supervisor runs and
    whatever its environment does (processes that exit, calls that raise,
    an interrupt), it holds no handle ([api_process] is [None]), it never
    starts [API.py], never polls a server and never terminates one. *)
Theorem adopted_server_is_left_alone (w : W) (fuel : nat) :
  (connect_ex W os w).1 = Ok 0 ->
  let s := (main os fuel (boot w)).2 in
  api_process s = None
  /\ (Popen "API.py" ∉ trace s)
  /\ (forall p, Terminate p ∉ trace s)
  /\ (forall p, Poll p ∉ trace s).
Proof.
  intros Hport.
  assert (stable adopted (main os fuel (boot w)).2) as [Hp Ht].
  { unfold main. unfold bind at 1.
    assert (is_api_server_running os (boot w)
            = (Ok true, State (connect_ex W os w).2 None None [ConnectEx])) as ->.
    { unfold is_api_server_running, try_except, bind, call, boot. simpl.
      destruct (connect_ex W os w) as [r w']. simpl in *. by subst r. }
    match goal with |- stable adopted (?m ?s).2 =>
      assert (preserves (stable adopted) m) as Hm end.
    { apply preserves_bind; [apply get_api_server_pid_adopted|]. intros _.
      apply preserves_bind; [by intros s [_ ?]|]. intros _.
      apply preserves_bind; [apply preserves_ret|]. intros _.
      apply preserves_try_except2.
      - apply preserves_bind; [apply while_true_adopted|]. intros _. keeps.
      - intros _. apply preserves_bind; [apply terminate_api_adopted|]. intros _. keeps.
      - intros _. apply preserves_bind; [apply terminate_api_adopted|]. intros _. keeps. }
    apply Hm. split; [done|]. by repeat constructor. }
  simpl. split; [done|].
  rewrite Forall_forall in Ht.
  split; [|split]; [intros H|intros p H..]; by apply Ht in H.
Qed.


(** *** The check step against a detector that never concludes *)

(** A run of the detector from which the Supervisor learns nothing: the
    wait timed out, or the output holds neither YES_CHANGED nor NO_CHANGED
    (the token ERROR, or anything else). *)
Definition inconclusive (r : result completed) : Prop :=
  match r with
  | Raise TimeoutExpired => True
  | Raise _ => False
  | Ok out =>
      contains "YES_CHANGED" (c_stdout out) = false
      /\ contains "NO_CHANGED" (c_stdout out) = false
  end.

Definition is_spawn_or_sleep (e : event) : bool :=
  match e with Popen _ | Sleep _ => true | _ => false end.

(** The spawns and the pauses among the events, in order. *)
Definition spawns_and_sleeps (t : list event) : list event :=
  List.filter is_spawn_or_sleep t.

Section Inconclusive.

Hypothesis popen_returns :
  forall w, exists p, (popen W os "check_mongo_changes.py" w).1 = Ok p.
Hypothesis communicate_inconclusive :
  forall p w, inconclusive (communicate W os p 60 w).1.
Hypothesis kill_returns : forall p w, (kill W os p w).1 = Ok tt.
Hypothesis sleep_returns : forall n w, (time_sleep W os n w).1 = Ok tt.

Lemma retry_or_stop_spec retry (s : state) :
  exists s',
    retry_or_stop os retry s
    = (Ok (if (retry <? 2)%nat then Continue else Return false), s')
    /\ api_process s' = api_process s
    /\ trace s' = trace s ++ (if (retry <? 2)%nat then [Sleep 2] else []).
Proof.
  unfold retry_or_stop, max_retries. simpl.
  destruct (retry <? 2)%nat.
  - unfold bind, sleep, call. pose proof (sleep_returns 2 (world s)) as H.
    destruct (time_sleep W os 2 (world s)) as [r w]. simpl in H. subst r.
    eexists. split; [reflexivity|]. done.
  - eexists. split; [reflexivity|]. by rewrite app_nil_r.
Qed.

(** One inconclusive pass: a spawn, then a pause unless the pass is the
    last. *)
Lemma check_attempt_inconclusive retry (s : state) :
  exists s' evs,
    check_attempt os retry s
    = (Ok (if (retry <? 2)%nat then Continue else Return false), s')
    /\ api_process s' = api_process s
    /\ trace s' = trace s ++ evs
    /\ spawns_and_sleeps evs
       = Popen "check_mongo_changes.py"
           :: (if (retry <? 2)%nat then [Sleep 2] else []).
Proof.
  unfold check_attempt, popen_process, communicate_process, kill_process,
    the_process.
  unfold try_except, bind, call, set_process, modify, get, ret. simpl.
  destruct (popen_returns (world s)) as [p Hp].
  destruct (popen W os "check_mongo_changes.py" (world s)) as [r1 w1].
  simpl in Hp. subst r1. simpl.
  pose proof (communicate_inconclusive p w1) as Hc.
  destruct (communicate W os p 60 w1) as [[out|e] w2]; simpl in Hc.
  - destruct Hc as [-> ->].
    destruct (contains "ERROR" (c_stdout out));
      match goal with |- context [retry_or_stop os retry ?s1] =>
        destruct (retry_or_stop_spec retry s1) as (s' & E & Ha & Ht) end;
      exists s'; eexists; rewrite E;
      (split; [done|]); (split; [done|]);
      (split; [rewrite Ht; simpl; by rewrite <- !app_assoc|]);
      simpl; by destruct (retry <? 2)%nat.
  - destruct e; try done. simpl.
    pose proof (kill_returns p w2) as Hk.
    destruct (kill W os p w2) as [r3 w3]. simpl in Hk. subst r3.
    match goal with |- context [retry_or_stop os retry ?s1] =>
      destruct (retry_or_stop_spec retry s1) as (s' & E & Ha & Ht) end.
    exists s'. eexists. rewrite E.
    split; [done|]. split; [done|].
    split; [rewrite Ht; simpl; by rewrite <- !app_assoc|].
    simpl. by destruct (retry <? 2)%nat.
Qed.

Lemma spawns_and_sleeps_app t1 t2 :
  spawns_and_sleeps (t1 ++ t2) = spawns_and_sleeps t1 ++ spawns_and_sleeps t2.
Proof. apply List.filter_app. Qed.

(** C4.  When every run of the detector is inconclusive (and starting a
    process, killing it and sleeping return), the check step starts the
    detector exactly three times, pauses two seconds between two
    attempts, and returns [False]; the iteration then ends there, with no
    refresh. *)
Theorem check_gives_up_after_three_attempts (s : state) :
  exists s' evs,
    check_mongodb_changes os s = (Ok (Some false), s')
    /\ trace s' = trace s ++ evs
    /\ spawns_and_sleeps evs
       = [Popen "check_mongo_changes.py"; Sleep 2;
          Popen "check_mongo_changes.py"; Sleep 2;
          Popen "check_mongo_changes.py"]
    /\ api_process s' = api_process s
    /\ check_and_refresh os s = (Ok tt, s').
Proof.
  assert (exists s' evs,
    check_mongodb_changes os s = (Ok (Some false), s')
    /\ trace s' = trace s ++ evs
    /\ spawns_and_sleeps evs
       = [Popen "check_mongo_changes.py"; Sleep 2;
          Popen "check_mongo_changes.py"; Sleep 2;
          Popen "check_mongo_changes.py"]
    /\ api_process s' = api_process s) as (s' & evs & E & Ht & Hs & Ha).
  { unfold check_mongodb_changes, max_retries.
    unfold bind, set_process, modify, try_except. simpl.
    match goal with |- context [check_attempt os 0 ?s0] =>
      destruct (check_attempt_inconclusive 0 s0) as (s1 & e1 & E1 & A1 & T1 & S1) end.
    rewrite E1. simpl.
    destruct (check_attempt_inconclusive 1 s1) as (s2 & e2 & E2 & A2 & T2 & S2).
    rewrite E2. simpl.
    destruct (check_attempt_inconclusive 2 s2) as (s3 & e3 & E3 & A3 & T3 & S3).
    rewrite E3. simpl.
    exists s3, (e1 ++ e2 ++ e3). split; [done|].
    split; [rewrite T3, T2, T1; simpl; by rewrite <- !app_assoc|].
    split; [by rewrite !spawns_and_sleeps_app, S1, S2, S3|].
    by rewrite A3, A2, A1. }
  exists s', evs. repeat (split; [done|]).
  unfold check_and_refresh, bind. by rewrite E.
Qed.

End Inconclusive.

End Generic.

(** An operating system on which the detector always hangs. *)
Definition hanging_os : OS unit := {|
  connect_ex := fun w => (Ok 0, w);
  process_iter := fun w => (Ok [], w);
  popen := fun _ w => (Ok 7%nat, w);
  communicate := fun _ _ w => (Raise TimeoutExpired, w);
  kill := fun _ w => (Ok tt, w);
  poll := fun _ w => (Ok None, w);
  terminate := fun _ w => (Ok tt, w);
  time_sleep := fun _ w => (Ok tt, w);
  check_interval := fun w => (Ok 7200, w)
|}.

Lemma check_gives_up_witness :
  exists s' evs,
    check_mongodb_changes hanging_os (boot tt) = (Ok (Some false), s')
    /\ trace s' = trace (boot tt) ++ evs
    /\ spawns_and_sleeps evs
       = [Popen "check_mongo_changes.py"; Sleep 2;
          Popen "check_mongo_changes.py"; Sleep 2;
          Popen "check_mongo_changes.py"]
    /\ api_process s' = api_process (boot tt)
    /\ check_and_refresh hanging_os (boot tt) = (Ok tt, s').
Proof.
  apply (check_gives_up_after_three_attempts hanging_os).
  - intros w. exists 7%nat. reflexivity.
  - intros p w. exact I.
  - intros p w. reflexivity.
  - intros n w. reflexivity.
Defined.

Lemma adopted_server_witness :
  api_process (main hanging_os 5 (boot tt)).2 = None
  /\ (Popen "API.py" ∉ trace (main hanging_os 5 (boot tt)).2).
Proof.
  destruct (adopted_server_is_left_alone hanging_os tt 5 eq_refl) as (H1 & H2 & _).
  split; [exact H1 | exact H2].
Defined.

End SupervisorFacts.

(** ** The three scripts on one machine *)

Module SystemFacts.
Import Py Json Mongo Supervisor System.
Import DetectorFacts RefresherFacts SupervisorFacts.

#[local] Arguments contains : simpl never.

Local Abbreviation state := (Supervisor.state (W := machine)).

Definition REFRESHER : string := "get_mongo_data.py".

Lemma started_last (l : list string) script :
  (l ++ [script]) !! length l = Some script.
Proof. by apply list_lookup_middle. Qed.


















(** *** The exit status of the Data Refresher and its caller *)

(** A store that answers and in which no database has a collection with
    the prefix. *)
Definition bare_store : client :=
  fun _ => Database (Some ["archive"]) (fun _ => Some []).

Definition bare_machine : machine :=
  Machine Detector.Missing ∅ false
          (fun _ => Completes (fun _ => Connected bare_store)
                              (fun _ => "20250102_030405"))
          [].

(** C5, counterexample.  Both configured databases fail (neither has a
    collection with the prefix) and no snapshot is written; the script
    exits with status 0, and [run_get_mongo_data], which started it,
    returns [True]. *)
Lemma all_databases_fail_yet_exit_zero :
  let r := Refresher.run (fun _ => Connected bare_store)
                         (fun _ => "20250102_030405") ∅ in
  Refresher.Log Refresher.ERROR (Refresher.Failed "BACHV_BB_STOCKS")
    ∈ Refresher.trace r.2
  /\ Refresher.Log Refresher.ERROR (Refresher.Failed "BACHV_UD_STOCKS")
       ∈ Refresher.trace r.2
  /\ Refresher.files r.2 = ∅
  /\ r.1 = 0
  /\ (run_get_mongo_data sys_os (boot bare_machine)).1 = Ok (Some true).
Proof.
  simpl. split; [|split; [|split; [|split]]].
  - vm_compute. in_list.
  - vm_compute. in_list.
  - reflexivity.
  - reflexivity.
  - vm_compute. reflexivity.
Qed.

Lemma refresh_succeeds (s : state) mongo now :
  children (world s) (length (started (world s))) = Completes mongo now ->
  (exists retry c, (retry < Refresher.max_retries)%nat /\ mongo retry = Connected c) ->
  exists s',
    run_get_mongo_data sys_os s = (Ok (Some true), s')
    /\ trace s' = trace s ++ [Popen REFRESHER;
                              Communicate (length (started (world s))) 120].
Proof.
  intros Hc Hconn.
  unfold run_get_mongo_data, max_retries.
  unfold bind at 1. unfold set_process, modify, try_except. simpl.
  unfold fetch_attempt, popen_process, communicate_process, the_process.
  unfold try_except, bind, call, set_process, modify, get, ret.
  simpl. unfold sys_communicate. simpl. rewrite started_last, Hc. simpl.
  assert (exit_status
            (Refresher.main mongo now
               (Refresher.State (get_data (world s)) 0%nat [])).1 = 0) as ->.
  { by apply (exit_status_connected mongo now Refresher.DATABASES). }
  simpl. eexists. split; [reflexivity|]. simpl. by rewrite <- app_assoc.
Qed.

(** C5, as amended.  The Data Refresher exits with status 0 exactly when
    one of the three connection attempts of its constructor reaches the
    store, and with status 1 otherwise, whatever the databases hold and
    whatever list of databases is configured: a run in which every
    database fails still exits with 0.  The Supervisor that started such a
    run takes it for a success: [run_get_mongo_data] returns [True] after
    this one attempt. *)
Theorem refresher_exit_status_ignores_databases :
  (forall (mongo : nat -> connection) (now : nat -> string)
          (databases : list string) (fs : gmap string (list document)),
     let status :=
       exit_status (Refresher.main_with mongo now databases
                      (Refresher.State fs 0%nat [])).1 in
     (status = 0 \/ status = 1)
     /\ (status = 0 <->
         exists retry c, (retry < Refresher.max_retries)%nat
                         /\ mongo retry = Connected c))
  /\ (forall (s : state) (mongo : nat -> connection) (now : nat -> string)
             (retry : nat) (c : client),
        children (world s) (length (started (world s))) = Completes mongo now ->
        (retry < Refresher.max_retries)%nat -> mongo retry = Connected c ->
        (Refresher.run mongo now (get_data (world s))).1 = 0
        /\ exists s',
             run_get_mongo_data sys_os s = (Ok (Some true), s')
             /\ trace s' = trace s ++ [Popen REFRESHER;
                                       Communicate (length (started (world s))) 120]).
Proof.
  split.
  - intros mongo now databases fs. apply exit_status_connected.
  - intros s mongo now retry c Hc Hr Hm. split.
    + apply (exit_status_connected mongo now Refresher.DATABASES). eauto.
    + apply (refresh_succeeds s mongo now Hc). eauto.
Qed.

End SystemFacts.

(* ===================================================================== *)
(** * Part III: further properties of the scripts                        *)
(* ===================================================================== *)

Set Warnings "-clear-no-such-hyp".

(** ** More on the Change Detector *)

Module DetectorMore.
Import Py Json Mongo Detector PyFacts MD5Facts JsonFacts DetectorFacts.

#[local] Arguments try_hash : simpl never.

(** *** The current collection *)

Lemma head_rev {A} (l : list A) : head (rev l) = last l.
Proof.
  rewrite <- head_reverse. f_equal. apply List.rev_alt.
Qed.

Lemma str_le_refl a : str_le a a.
Proof. unfold str_le, String.leb. by rewrite string_compare_refl. Qed.

(** [latest_of] gives the greatest name of a list, in the order of [str]. *)
Lemma latest_of_greatest l x :
  latest_of l = Some x <-> x ∈ l /\ forall y, y ∈ l -> str_le y x.
Proof.
  unfold latest_of, sorted_reverse. rewrite head_rev.
  pose proof (StronglySorted_merge_sort str_le l) as Hs.
  pose proof (merge_sort_Permutation str_le l) as Hp.
  fold (Py.sorted l) in Hs, Hp. split.
  - intros [k Hk]%last_Some. rewrite Hk in Hs, Hp. split.
    + rewrite <- Hp. apply elem_of_app. right. by apply list_elem_of_singleton.
    + intros y Hy. rewrite <- Hp in Hy. apply elem_of_app in Hy as [Hy|Hy].
      * apply (StronglySorted_app_1_elem_of _ k [x]); [done..|].
        by apply list_elem_of_singleton.
      * apply list_elem_of_singleton in Hy as ->. apply str_le_refl.
  - intros [Hx Hmax].
    destruct (last (Py.sorted l)) as [z|] eqn:Ez.
    + f_equal. apply last_Some in Ez as [k Hk]. rewrite Hk in Hs, Hp.
      assert (z ∈ l) as Hz.
      { rewrite <- Hp. apply elem_of_app. right. by apply list_elem_of_singleton. }
      apply str_le_antisym; [by apply Hmax|].
      rewrite <- Hp in Hx. apply elem_of_app in Hx as [Hx|Hx].
      * apply (StronglySorted_app_1_elem_of _ k [z]); [done..|].
        by apply list_elem_of_singleton.
      * apply list_elem_of_singleton in Hx as ->. apply str_le_refl.
    + apply last_None in Ez. rewrite Ez in Hp.
      apply Permutation_nil in Hp. subst l. by apply elem_of_nil in Hx.
Qed.

Lemma elem_of_net_data names x :
  x ∈ net_data names <-> x ∈ names /\ startswith x "Net_Data_" = true.
Proof.
  unfold net_data. rewrite list_elem_of_filter.
  split; intros [H1 H2]; split; try done.
  - by apply Is_true_true.
  - by apply Is_true_true.
Qed.

(** X1.  [get_latest_collection] returns a name exactly when the listing
    succeeds and that name is, among the listed names that start with
    [Net_Data_], the greatest in the order of [str]; so the answer does not
    depend on the order of the listing. *)
Theorem latest_collection_is_greatest (c : client) (database collection : string) :
  get_latest_collection c database = Some collection
  <-> exists names,
        list_collection_names (c database) = Some names
        /\ collection ∈ names
        /\ startswith collection "Net_Data_" = true
        /\ forall x, x ∈ names -> startswith x "Net_Data_" = true ->
                     str_le x collection.
Proof.
  unfold get_latest_collection.
  destruct (list_collection_names (c database)) as [names|];
    [|by split; [|intros (?&?&?)]].
  assert (match net_data names with [] => None | _ => latest_of (net_data names) end
          = latest_of (net_data names)) as -> by (by destruct (net_data names)).
  rewrite latest_of_greatest. split.
  - intros [Hin Hmax]. apply elem_of_net_data in Hin as [Hin Hp].
    exists names. repeat (split; [done|]). intros x Hx Hpx.
    apply Hmax. by apply elem_of_net_data.
  - intros (names' & [= <-] & Hin & Hp & Hmax). split.
    + by apply elem_of_net_data.
    + intros y [Hy Hpy]%elem_of_net_data. by apply Hmax.
Qed.

(** *** The retries of [get_mongodb_data_hash] *)

(** The events of [n] attempts in a row: a pause of two seconds between
    two attempts. *)
Fixpoint schedule (first n : nat) : list event :=
  match n with
  | O => []
  | Datatypes.S O => [Connect first]
  | Datatypes.S n' => Connect first :: Sleep 2 :: schedule (Datatypes.S first) n'
  end.

(** X2.  Whatever the store answers, [get_mongodb_data_hash] makes between
    one and three attempts, pauses two seconds (always two) between two
    attempts, stops at the first attempt that yields a fingerprint and
    returns it; it returns [None] only after three failed attempts. *)
Theorem hash_retries_are_bounded (mongo : nat -> connection) :
  exists n,
    (1 <= n <= max_retries)%nat
    /\ attempts mongo = schedule 0 n
    /\ (forall k, (k < n - 1)%nat -> try_hash (mongo k) = None)
    /\ fingerprint mongo = try_hash (mongo (n - 1)%nat)
    /\ (fingerprint mongo = None -> n = max_retries).
Proof.
  unfold fingerprint, attempts, get_mongodb_data_hash, max_retries. simpl.
  unfold bind. simpl.
  destruct (try_hash (mongo 0%nat)) as [h0|] eqn:E0; simpl.
  { exists 1%nat. repeat split; try done; try lia;
      try (intros k Hk; destruct k as [|[|k]]; try done; lia). }
  destruct (try_hash (mongo 1%nat)) as [h1|] eqn:E1; simpl.
  { exists 2%nat. repeat split; try done; try lia;
      try (intros k Hk; destruct k as [|[|k]]; try done; lia). }
  exists 3%nat. simpl.
  destruct (try_hash (mongo 2%nat)) as [h2|] eqn:E2; simpl;
    repeat split; try done; try lia;
    try (intros k Hk; destruct k as [|[|k]]; try done; lia).
Qed.



(** *** What the fingerprint depends on *)

(** Runs over stores that give the same fingerprint, attempt by attempt,
    behave alike. *)
Lemma run_ext (mongo mongo' : nat -> connection) :
  (forall retry, try_hash (mongo retry) = try_hash (mongo' retry)) ->
  fingerprint mongo = fingerprint mongo'
  /\ forall file, run mongo file = run mongo' file.
Proof.
  intros H.
  assert (fingerprint mongo = fingerprint mongo' /\ attempts mongo = attempts mongo')
    as [Ef Ea].
  { unfold fingerprint, attempts, get_mongodb_data_hash, max_retries. simpl.
    unfold bind. simpl. rewrite <- !H.
    destruct (try_hash (mongo 0%nat)); [done|]. simpl.
    destruct (try_hash (mongo 1%nat)); [done|]. simpl.
    by destruct (try_hash (mongo 2%nat)). }
  split; [done|]. intros file. by rewrite !run_spec, Ef, Ea.
Qed.

Lemma fingerprint_const conn : fingerprint (fun _ => conn) = try_hash conn.
Proof.
  unfold fingerprint, get_mongodb_data_hash, max_retries. simpl.
  unfold bind. simpl. by destruct (try_hash conn).
Qed.

(** The same document under another identifier. *)
Definition set_id (v : json) (d : document) : document :=
  map (fun kv => if String.eqb kv.1 "_id" then (kv.1, v) else kv) d.

(** The same store with the identifier of every document replaced by the
    one [f] chooses for it. *)
Definition reidentify (f : document -> json) (conn : connection) : connection :=
  match conn with
  | Unreachable => Unreachable
  | Connected c =>
      Connected (fun database =>
        Database (list_collection_names (c database))
                 (fun collection =>
                    match documents (c database) collection with
                    | Some docs => Some (map (fun d => set_id (f d) d) docs)
                    | None => None
                    end))
  end.

Lemma strip_id_set_id v d : strip_id (set_id v d) = strip_id d.
Proof.
  unfold strip_id, set_id, document in *. induction d as [|[k x] d IH]; [done|].
  cbn [map]. rewrite !filter_cons. cbn [fst].
  destruct (String.eqb k "_id") eqn:E; cbn [fst]; rewrite E, IH; done.
Qed.

Lemma find_no_id_reidentify (f : document -> json) (c : client)
    (database collection : string) :
  find_no_id
    (Database (list_collection_names (c database))
       (fun collection =>
          match documents (c database) collection with
          | Some docs => Some (map (fun d => set_id (f d) d) docs)
          | None => None
          end)) collection
  = find_no_id (c database) collection.
Proof.
  unfold find_no_id. simpl. destruct (documents (c database) collection); [|done].
  f_equal. rewrite map_map. apply map_ext. intros d. apply strip_id_set_id.
Qed.

Lemma try_hash_reidentify f conn : try_hash (reidentify f conn) = try_hash conn.
Proof.
  destruct conn as [|c]; [done|]. unfold try_hash, reidentify.
  match goal with |- match collect ?c' _ with _ => _ end = _ =>
    assert (forall dbs, collect c' dbs = collect c dbs) as -> end; [|done].
  induction dbs as [|database rest IH]; [done|]. simpl.
  unfold get_latest_collection at 1. simpl.
  fold (get_latest_collection c database).
  destruct (get_latest_collection c database) as [latest|]; [|done].
  by rewrite find_no_id_reidentify, IH.
Qed.

(** X3.  The fingerprint does not depend on record identifiers: replacing
    the value of the top-level [_id] field of every document of the store,
    in any way, leaves the fingerprint and the whole run of the detector as
    they are. *)
Theorem fingerprint_ignores_identifiers
    (f : document -> json) (mongo : nat -> connection) (file : path_state) :
  fingerprint (fun retry => reidentify f (mongo retry)) = fingerprint mongo
  /\ run (fun retry => reidentify f (mongo retry)) file = run mongo file.
Proof.
  destruct (run_ext (fun retry => reidentify f (mongo retry)) mongo) as [H1 H2].
  - intros retry. apply try_hash_reidentify.
  - split; [exact H1 | apply H2].
Qed.

Lemma collect_nothing c databases :
  (forall database, database ∈ databases ->
     get_latest_collection c database = None) ->
  collect c databases = Some [].
Proof.
  induction databases as [|database rest IH]; intros H; [done|].
  simpl. rewrite (H database) by (by left). apply IH.
  intros d Hd. apply H. by right.
Qed.

(** X4.  A store that answers but in which no configured database has a
    collection with the prefix (or whose listings raise) is not an error:
    every database is skipped, the fingerprint is that of the empty list,
    and a first run reports a change and seeds the file with it. *)
Theorem empty_store_has_a_fingerprint (c : client) :
  (forall database, database ∈ DATABASES ->
     get_latest_collection c database = None) ->
  try_hash (Connected c) = Some "d751713988987e9331980363e24189ce"
  /\ stdout (run (fun _ => Connected c) Missing) = line "YES_CHANGED"
  /\ hash_file (run (fun _ => Connected c) Missing)
     = RegularFile "d751713988987e9331980363e24189ce".
Proof.
  intros H.
  assert (try_hash (Connected c) = Some "d751713988987e9331980363e24189ce") as E.
  { unfold try_hash. rewrite (collect_nothing c DATABASES H).
    vm_compute. reflexivity. }
  split; [done|].
  by rewrite run_spec, fingerprint_const, E.
Qed.

Lemma empty_store_witness :
  try_hash (Connected (fun _ => Database None (fun _ => None)))
  = Some "d751713988987e9331980363e24189ce".
Proof.
  apply (empty_store_has_a_fingerprint (fun _ => Database None (fun _ => None))).
  intros database _. reflexivity.
Defined.

(** *** Values the encoder refuses *)

(** A value with no ObjectId, date or other value of BSON alone in it. *)
Fixpoint encodable (v : json) : bool :=
  match v with
  | JBson _ => false
  | JArr items => forallb encodable items
  | JObj items => forallb (fun kv => encodable kv.2) items
  | _ => true
  end.

Lemma dumps_encodable v : is_Some (dumps v) <-> encodable v = true.
Proof.
  induction v as [| | | | | |items IH|items IH] using json_nested_ind;
    try (by split; [|eauto]); try (by split; [intros [? [=]] | ]).
  - destruct b; by split; [|eauto].
  - rewrite dumps_arr. simpl. rewrite forallb_forall.
    destruct (mapM dumps items) as [parts|] eqn:E.
    + split; [|eauto]. intros _ x Hx%list_elem_of_In.
      apply mapM_Some in E.
      apply (proj1 (Forall_forall _ _) IH x Hx).
      apply list_elem_of_lookup in Hx as [i Hi].
      destruct (Forall2_lookup_l _ _ _ i x E Hi) as (z & _ & Hz). eauto.
    + split; [by intros [? [=]]|]. intros H.
      apply mapM_None in E. apply Exists_exists in E as (x & Hx & Hd).
      assert (is_Some (dumps x)) as [? Hs]; [|congruence].
      apply (proj1 (Forall_forall _ _) IH x Hx). apply H. by apply list_elem_of_In.
  - rewrite dumps_obj. simpl. rewrite forallb_forall.
    destruct (mapM dump_item items) as [parts|] eqn:E.
    + split; [|eauto]. intros _ x Hx%list_elem_of_In.
      apply mapM_Some in E.
      apply (proj1 (Forall_forall _ _) IH x Hx).
      apply list_elem_of_lookup in Hx as [i Hi].
      destruct (Forall2_lookup_l _ _ _ i x E Hi) as (z & _ & Hz).
      unfold dump_item in Hz. destruct (dumps x.2); [eauto | done].
    + split; [by intros [? [=]]|]. intros H.
      apply mapM_None in E. apply Exists_exists in E as (x & Hx & Hd).
      assert (is_Some (dumps x.2)) as [? Hs].
      { apply (proj1 (Forall_forall _ _) IH x Hx). apply H. by apply list_elem_of_In. }
      unfold dump_item in Hd. by rewrite Hs in Hd.
Qed.

Lemma collect_entry c databases : forall all_data database latest docs,
  collect c databases = Some all_data ->
  database ∈ databases ->
  get_latest_collection c database = Some latest ->
  find_no_id (c database) latest = Some docs ->
  entry database latest docs ∈ all_data.
Proof.
  induction databases as [|d rest IH]; intros all_data database latest docs Hc Hin Hl Hf.
  { by apply elem_of_nil in Hin. }
  simpl in Hc.
  destruct (get_latest_collection c d) as [ld|] eqn:El.
  - destruct (find_no_id (c d) ld) as [dd|] eqn:Ef; [|done].
    destruct (collect c rest) as [l|] eqn:Er; [|done].
    injection Hc as <-.
    apply elem_of_cons in Hin as [->|Hin].
    + rewrite El in Hl. injection Hl as ->. rewrite Ef in Hf. injection Hf as ->.
      by left.
    + right. by apply (IH l database latest docs).
  - apply elem_of_cons in Hin as [->|Hin]; [congruence|].
    by apply (IH all_data database latest docs).
Qed.

(** X5.  A value the JSON encoder refuses (a date, a nested ObjectId) in
    any document of the current collection of a configured database makes
    the attempt fail as an unreachable store would: if it is there on every
    attempt the detector prints NO_CHANGED, whatever has changed, and
    leaves the fingerprint file as it is. *)
Theorem unencodable_value_hides_changes
    (c : client) (database latest : string) (docs : list document) (d : document)
    (file : path_state) :
  database ∈ DATABASES ->
  get_latest_collection c database = Some latest ->
  documents (c database) latest = Some docs ->
  d ∈ docs ->
  encodable (JObj (strip_id d)) = false ->
  try_hash (Connected c) = None
  /\ stdout (run (fun _ => Connected c) file) = line "NO_CHANGED"
  /\ hash_file (run (fun _ => Connected c) file) = file.
Proof.
  intros Hdb Hl Hdocs Hd Henc.
  assert (try_hash (Connected c) = None) as E.
  { unfold try_hash. destruct (collect c DATABASES) as [all_data|] eqn:Ec; [|done].
    destruct (dumps (JArr all_data)) as [text|] eqn:Ed; [|done].
    assert (encodable (JArr all_data) = true) as Ha
      by (apply dumps_encodable; eauto).
    simpl in Ha. rewrite forallb_forall in Ha.
    assert (find_no_id (c database) latest = Some (map strip_id docs)) as Hf
      by (unfold find_no_id; by rewrite Hdocs).
    pose proof (collect_entry c DATABASES _ _ _ _ Ec Hdb Hl Hf) as Hin.
    apply list_elem_of_In, Ha in Hin. simpl in Hin.
    rewrite andb_true_r in Hin. rewrite forallb_forall in Hin.
    specialize (Hin (JObj (strip_id d))). rewrite Henc in Hin.
    exfalso. assert (false = true) as [=]. apply Hin.
    apply in_map, in_map. by apply list_elem_of_In. }
  split; [done|].
  by rewrite run_spec, fingerprint_const, E.
Qed.

(** A store whose current collection holds a date. *)
Definition dated : document :=
  [("_id", JBson "ObjectId"); ("symbol", JStr "FPT"); ("at", JBson "datetime")].

Lemma unencodable_witness :
  stdout (run (fun _ => Connected (store_of [fpt; dated])) Missing)
  = line "NO_CHANGED".
Proof.
  destruct (unencodable_value_hides_changes (store_of [fpt; dated])
              "BACHV_BB_STOCKS" "Net_Data_20250101" [fpt; dated] dated Missing)
    as (_ & H & _).
  - apply (bool_decide_eq_true_1 _). vm_compute. reflexivity.
  - vm_compute. reflexivity.
  - reflexivity.
  - apply list_elem_of_further, list_elem_of_here.
  - reflexivity.
  - exact H.
Defined.



(** *** What a run prints, and what a second run does *)

(** X6.  The line a run prints, case by case.  YES_CHANGED exactly when a
    fingerprint was computed and the file is missing and can be created,
    or is read as a text that, once stripped, is another text, and can be
    overwritten.  ERROR exactly when a fingerprint was computed and one of
    the accesses to the file raises: the path is a directory, the file
    cannot be read (its bytes do not decode, or the process may not open
    it), the file is missing and cannot be created, or it holds another
    text and cannot be written.  NO_CHANGED exactly when no fingerprint
    could be computed or the file is read as the fingerprint. *)
Theorem detector_decision_table (mongo : nat -> connection) (file : path_state) :
  (stdout (run mongo file) = line "YES_CHANGED"
   <-> exists h, fingerprint mongo = Some h
                 /\ (file = Missing
                     \/ exists text, file = RegularFile text /\ strip text <> h))
  /\ (stdout (run mongo file) = line "ERROR"
      <-> exists h, fingerprint mongo = Some h
                    /\ (file = Directory \/ file = Undecodable
                        \/ file = Protected \/ file = Uncreatable
                        \/ exists text, file = ReadOnly text /\ strip text <> h))
  /\ (stdout (run mongo file) = line "NO_CHANGED"
      <-> fingerprint mongo = None
          \/ exists text, (file = RegularFile text \/ file = ReadOnly text)
                          /\ fingerprint mongo = Some (strip text)).
Proof.
  rewrite run_spec. destruct (fingerprint mongo) as [h|]; simpl.
  - destruct file as [|text| | | |text|]; simpl;
      try (destruct (String.eqb h (strip text)) eqn:E; simpl;
           [apply String.eqb_eq in E | apply String.eqb_neq in E]);
      vm_compute line; naive_solver.
  - vm_compute line. naive_solver.
Qed.

(** X7.  The detector is idempotent: after any run, from any state of the
    file, a second run that computes the same fingerprint (or fails to
    compute one as the first did) never prints YES_CHANGED, writes nothing
    and leaves the file as the first run left it. *)
Theorem rerun_reports_no_change
    (mongo mongo' : nat -> connection) (file : path_state) :
  fingerprint mongo' = fingerprint mongo ->
  let first := run mongo file in
  let second := run mongo' (hash_file first) in
  stdout second <> line "YES_CHANGED"
  /\ stdout second = (if bool_decide (stdout first = line "ERROR")
                      then line "ERROR" else line "NO_CHANGED")
  /\ hash_file second = hash_file first
  /\ writes (trace second) = [].
Proof.
  intros Hf. simpl. rewrite !run_spec, Hf.
  destruct (fingerprint mongo) as [h|] eqn:E; simpl.
  - pose proof (fingerprint_strip mongo h E) as Hs.
    destruct file as [|text| | | |text|]; simpl.
    + rewrite Hs, String.eqb_refl. simpl. by rewrite attempts_no_write.
    + destruct (String.eqb h (strip text)) eqn:Et; simpl.
      * rewrite Et. simpl. by rewrite attempts_no_write.
      * rewrite Hs, String.eqb_refl. simpl. by rewrite attempts_no_write.
    + by rewrite attempts_no_write.
    + by rewrite attempts_no_write.
    + by rewrite attempts_no_write.
    + destruct (String.eqb h (strip text)) eqn:Et; simpl; rewrite Et; simpl;
        by rewrite attempts_no_write.
    + by rewrite attempts_no_write.
  - by rewrite attempts_no_write.
Qed.

Lemma rerun_witness :
  stdout (run (fun _ => Connected (store_of [vnm; fpt]))
              (hash_file (run (fun _ => Connected (store_of [vnm; fpt]))
                              (RegularFile "fca9ce197af0e4765e93cb260e98f48c"))))
  <> line "YES_CHANGED".
Proof.
  apply (rerun_reports_no_change (fun _ => Connected (store_of [vnm; fpt]))
           (fun _ => Connected (store_of [vnm; fpt]))
           (RegularFile "fca9ce197af0e4765e93cb260e98f48c")).
  reflexivity.
Defined.

(** *** White space around the stored fingerprint *)

Definition all_space (s : string) : Prop :=
  Forall (fun c => isspace c = true) (list_ascii_of_string s).

Lemma lstrip_all_space a s : all_space a -> lstrip (a ++ s)%string = lstrip s.
Proof.
  induction a as [|c a IH]; [done|]. intros [Hc Ha]%Forall_cons.
  simpl. rewrite Hc. by apply IH.
Qed.

Lemma lstrip_only_space b : all_space b -> lstrip b = "".
Proof.
  induction b as [|c b IH]; [done|]. intros [Hc Hb]%Forall_cons.
  simpl. rewrite Hc. by apply IH.
Qed.

Lemma rstrip_all_space b : all_space b -> rstrip b = "".
Proof.
  induction b as [|c b IH]; [done|]. intros [Hc Hb]%Forall_cons.
  simpl. by rewrite (IH Hb), Hc.
Qed.

Lemma rstrip_no_space_app h b :
  no_space h -> all_space b -> rstrip (h ++ b)%string = h.
Proof.
  induction h as [|c h IH]; intros Hh Hb.
  - by apply rstrip_all_space.
  - apply Forall_cons in Hh as [Hc Hh]. simpl. rewrite (IH Hh Hb).
    destruct h; [by rewrite Hc | done].
Qed.

Lemma strip_padded a h b :
  all_space a -> no_space h -> all_space b -> strip (a ++ h ++ b)%string = h.
Proof.
  intros Ha Hh Hb. unfold strip. rewrite (lstrip_all_space a _ Ha).
  destruct h as [|c h].
  - change ("" ++ b)%string with b. by rewrite (lstrip_only_space b Hb).
  - pose proof Hh as Hh'. apply Forall_cons in Hh' as [Hc _].
    change (lstrip (String c h ++ b)%string)
      with (if isspace c then lstrip (h ++ b)%string else (String c h ++ b)%string).
    rewrite Hc. by apply (rstrip_no_space_app (String c h) b).
Qed.

Lemma fingerprint_is_digest mongo h :
  fingerprint mongo = Some h -> exists msg, h = MD5.hexdigest msg.
Proof.
  assert (forall conn, try_hash conn = Some h -> exists msg, h = MD5.hexdigest msg)
    as Ht.
  { intros conn. unfold try_hash. destruct conn as [|c]; [done|].
    destruct (collect c DATABASES); [|done].
    destruct (dumps _); [|done]. intros [= <-]. eauto. }
  unfold fingerprint, get_mongodb_data_hash, max_retries. simpl. unfold bind. simpl.
  destruct (try_hash (mongo 0%nat)) eqn:E0; simpl.
  { intros [= <-]. eauto. }
  destruct (try_hash (mongo 1%nat)) eqn:E1; simpl.
  { intros [= <-]. eauto. }
  destruct (try_hash (mongo 2%nat)) eqn:E2; simpl; [|done].
  intros [= <-]. eauto.
Qed.

Lemma fingerprint_no_space mongo h : fingerprint mongo = Some h -> no_space h.
Proof.
  intros [msg ->]%fingerprint_is_digest. apply hexdigest_no_space.
Qed.

(** X8.  White space around the stored fingerprint does not count (the
    file is stripped after reading): when the file holds the current
    fingerprint between any two runs of white space, such as a line feed
    added by an editor, the run prints NO_CHANGED and leaves the file as it
    is, white space included. *)
Theorem padded_fingerprint_matches
    (mongo : nat -> connection) (h before after : string) :
  fingerprint mongo = Some h ->
  all_space before -> all_space after ->
  let file := RegularFile (before ++ h ++ after)%string in
  stdout (run mongo file) = line "NO_CHANGED"
  /\ hash_file (run mongo file) = file
  /\ writes (trace (run mongo file)) = [].
Proof.
  intros Hf Ha Hb. simpl. rewrite run_spec, Hf.
  rewrite (strip_padded before h after Ha (fingerprint_no_space mongo h Hf) Hb).
  rewrite String.eqb_refl. simpl. by rewrite attempts_no_write.
Qed.

Lemma padded_fingerprint_witness :
  stdout (run (fun _ => Connected (store_of [fpt; vnm]))
              (RegularFile (" " ++ "fca9ce197af0e4765e93cb260e98f48c"
                                ++ String LF EmptyString)%string))
  = line "NO_CHANGED".
Proof.
  apply (padded_fingerprint_matches (fun _ => Connected (store_of [fpt; vnm]))
           "fca9ce197af0e4765e93cb260e98f48c" " " (String LF EmptyString)).
  - vm_compute. reflexivity.
  - by repeat constructor.
  - by repeat constructor.
Defined.

(** *** The shape of a fingerprint *)

Definition is_hex (c : ascii) : bool :=
  let n := code c in
  ((48 <=? n) && (n <=? 57)) || ((97 <=? n) && (n <=? 102)).

Lemma hex_digit_is_hex n : is_hex (MD5.hex_digit n) = true.
Proof.
  unfold MD5.hex_digit.
  assert (Z.to_nat (n mod 16) < 16)%nat as H
    by (pose proof (Z.mod_pos_bound n 16); lia).
  remember (Z.to_nat (n mod 16)) as k eqn:E. clear E.
  do 16 (destruct k as [|k]; [reflexivity|]). lia.
Qed.

Lemma length_string_of_list_ascii l :
  String.length (string_of_list_ascii l) = length l.
Proof. induction l as [|c l IH]; [done|]. simpl. by rewrite IH. Qed.

Lemma length_flat_map_hex_byte bs :
  length (flat_map MD5.hex_byte bs) = (2 * length bs)%nat.
Proof. induction bs as [|b bs IH]; [done|]. simpl. rewrite IH. lia. Qed.

Lemma length_le_bytes n x : length (MD5.le_bytes n x) = n.
Proof. revert x. induction n as [|n IH]; intros x; [done|]. simpl. by rewrite IH. Qed.

Lemma hexdigest_shape msg :
  String.length (MD5.hexdigest msg) = 32%nat
  /\ Forall (fun c => is_hex c = true) (list_ascii_of_string (MD5.hexdigest msg)).
Proof.
  unfold MD5.hexdigest. split.
  - rewrite length_string_of_list_ascii, length_flat_map_hex_byte.
    unfold MD5.digest. by rewrite !length_app, !length_le_bytes.
  - rewrite list_ascii_of_string_of_list_ascii.
    induction (MD5.digest msg) as [|b bs IH]; simpl; [constructor|].
    repeat constructor; auto using hex_digit_is_hex.
Qed.

(** X9.  A fingerprint is a text of 32 characters, each a digit or a letter
    from a to f; the file a run writes holds this text and nothing else
    (no line feed). *)
Theorem fingerprint_is_32_hex_digits
    (mongo : nat -> connection) (file : path_state) (h : string) :
  (fingerprint mongo = Some h ->
   String.length h = 32%nat
   /\ Forall (fun c => is_hex c = true) (list_ascii_of_string h))
  /\ (stdout (run mongo file) = line "YES_CHANGED" ->
      exists h', hash_file (run mongo file) = RegularFile h'
                 /\ String.length h' = 32%nat
                 /\ Forall (fun c => is_hex c = true) (list_ascii_of_string h')).
Proof.
  assert (forall h, fingerprint mongo = Some h ->
            String.length h = 32%nat
            /\ Forall (fun c => is_hex c = true) (list_ascii_of_string h)) as Hshape.
  { intros h0 [msg ->]%fingerprint_is_digest. apply hexdigest_shape. }
  split; [apply Hshape|].
  rewrite run_spec. destruct (fingerprint mongo) as [h'|] eqn:Ef; [|by vm_compute].
  destruct file as [|text| | | |text|]; simpl;
    try destruct (String.eqb h' (strip text)); simpl;
    first [by vm_compute | solve [eauto]].
Qed.

End DetectorMore.

(** ** More on the Data Refresher *)

Module RefresherMore.
Import Py Json Mongo Refresher PyFacts RefresherFacts.

#[local] Arguments path_join : simpl never.

(** *** The retries of the constructor *)

(** The events of a constructor that makes [n] attempts: each attempt but
    the last is followed by two log lines and a pause of two seconds. *)
Fixpoint init_schedule (first n : nat) : list event :=
  match n with
  | O => []
  | Datatypes.S O => [Connect first]
  | Datatypes.S n' =>
      Connect first :: Log WARNING (ConnectionError (first + 1))
        :: Log INFO (Reconnecting 2) :: Sleep 2
        :: init_schedule (Datatypes.S first) n'
  end.

(** X10.  The constructor of [NetworkDataFetch] makes between one and
    three connection attempts, two seconds apart, and keeps the client of
    the first attempt that reaches the store; it raises
    [ApiPredictionException] only when the third attempt fails too. *)
Theorem constructor_retries_are_bounded (mongo : nat -> connection) :
  exists n,
    (1 <= n <= max_retries)%nat
    /\ init_events mongo = init_schedule 0 n
    /\ (forall k, (k < n - 1)%nat -> mongo k = Unreachable)
    /\ init_outcome mongo
       = match mongo (n - 1)%nat with
         | Connected c => Ok (Self (Some c))
         | Unreachable => Raise ApiPredictionException
         end
    /\ (mongo (n - 1)%nat = Unreachable -> n = max_retries).
Proof.
  unfold init_outcome, init_events, init, max_retries. simpl. unfold bind. simpl.
  destruct (mongo 0%nat) as [|c0] eqn:E0; simpl.
  2:{ exists 1%nat. simpl. rewrite E0. repeat split; try done; try lia;
        try (intros k Hk; destruct k as [|[|k]]; try done; lia). }
  destruct (mongo 1%nat) as [|c1] eqn:E1; simpl.
  2:{ exists 2%nat. simpl. rewrite E1. repeat split; try done; try lia;
        try (intros k Hk; destruct k as [|[|k]]; try done; lia). }
  exists 3%nat. simpl.
  destruct (mongo 2%nat) as [|c2] eqn:E2; simpl;
    repeat split; try done; try lia;
    try (intros k Hk; destruct k as [|[|k]]; try done; lia).
Qed.

(** *** The name of a snapshot *)

Lemma prefix_app p s : String.prefix p (p ++ s)%string = true.
Proof.
  induction p as [|c p IH]; [by destruct s|]. simpl.
  destruct (ascii_dec c c); [done | congruence].
Qed.

Lemma length_app_string a b :
  String.length (a ++ b)%string = (String.length a + String.length b)%nat.
Proof. induction a as [|c a IH]; [done|]. simpl. by rewrite IH. Qed.

Lemma substring_whole p : String.substring 0 (String.length p) p = p.
Proof. induction p as [|c p IH]; [done|]. simpl. by rewrite IH. Qed.

Lemma substring_suffix a p :
  String.substring (String.length a) (String.length p) (a ++ p)%string = p.
Proof. induction a as [|c a IH]; [apply substring_whole | done]. Qed.

Lemma endswith_app a p : endswith (a ++ p)%string p = true.
Proof.
  unfold endswith. rewrite length_app_string.
  replace (String.length a + String.length p - String.length p)%nat
    with (String.length a) by lia.
  rewrite substring_suffix, String.eqb_refl.
  apply andb_true_iff. split; [|done]. apply Nat.leb_le. lia.
Qed.

(** The name of the file, without its directories. *)
Definition snapshot_name (time : string) : string :=
  (FILENAME_PREFIX ++ "_" ++ time ++ ".csv")%string.

(** X11.  A snapshot is written to
    [Get_Data/<sub>/mongodb_data_<time>.csv], where [<sub>] is BB when the
    name of the database holds BB (whether or not it also holds UD), UD
    when it holds UD and not BB, and Other otherwise; whatever the time
    text, [API.py] matches the name with its pattern
    [mongodb_data_*.csv]. *)
Theorem snapshot_name_matches_api_pattern (db time : string) :
  snapshot_path db time
  = path_join (path_join "Get_Data" (sub_dir_of db)) (snapshot_name time)
  /\ sub_dir_of db
     = (if contains "BB" db then "BB" else if contains "UD" db then "UD" else "Other")
  /\ Api.matches (snapshot_name time) = true.
Proof.
  split; [done|]. split; [done|].
  unfold Api.matches. rewrite !andb_true_iff. repeat split.
  - apply (prefix_app "mongodb_data_" (time ++ ".csv")).
  - apply (endswith_app ("mongodb_data_" ++ time) ".csv").
  - apply Nat.leb_le. unfold snapshot_name, FILENAME_PREFIX.
    rewrite !length_app_string. simpl. lia.
Qed.

(** *** The rows of a snapshot *)

Lemma strip_id_no_id d : "_id" ∉ (strip_id d).*1.
Proof.
  unfold strip_id. intros [[k v] [Hk Hin]]%list_elem_of_fmap.
  apply list_elem_of_filter in Hin as [Hp _]. simpl in *. subst k.
  by vm_compute in Hp.
Qed.

Lemma outcome_records db collection docs :
  outcome_of db = Records collection docs ->
  docs <> []
  /\ exists names raw,
       list_collection_names db = Some names
       /\ latest_of (net_data names) = Some collection
       /\ documents db collection = Some raw
       /\ docs = map strip_id raw.
Proof.
  unfold outcome_of, find_no_id.
  destruct (list_collection_names db) as [names|] eqn:En; [|done].
  destruct (latest_of (net_data names)) as [coll|] eqn:El; [|done].
  destruct (documents db coll) as [raw|] eqn:Ed; [|done]. simpl.
  destruct (map strip_id raw) as [|d ds] eqn:E; [done|].
  intros [= <- <-]. split; [done|]. exists names, raw. by rewrite El, Ed.
Qed.

(** The trace and the files of a run, whether the constructor connects or
    not. *)
Lemma main_with_cases mongo now dbs fs :
  (exists c,
     init_outcome mongo = Ok (Self (Some c))
     /\ main_with mongo now dbs (State fs 0%nat [])
        = (Ok tt,
           State (files_after c now 0 dbs fs) (length dbs)
                 ([Log INFO Starting] ++ init_events mongo
                    ++ reports c now 0 dbs ++ [Log INFO Completed])))
  \/ main_with mongo now dbs (State fs 0%nat [])
     = (Raise ApiPredictionException,
        State fs 0%nat ([Log INFO Starting] ++ init_events mongo)).
Proof.
  destruct (init_outcome_cases mongo) as [(retry & c & _ & _ & Hi)|[_ Hi]].
  - left. exists c. split; [done|]. by apply main_with_connected.
  - right. by apply main_with_unreachable.
Qed.

Lemma to_csv_in_run mongo now dbs fs path docs :
  ToCsv path docs ∈ trace (main_with mongo now dbs (State fs 0%nat [])).2 ->
  exists c i db collection,
    init_outcome mongo = Ok (Self (Some c))
    /\ dbs !! i = Some db
    /\ outcome_of (c db) = Records collection docs
    /\ path = snapshot_path db (now i).
Proof.
  pose proof (init_events_of_init mongo) as Hinit.
  destruct (main_with_cases mongo now dbs fs) as [(c & Hc & ->)| ->]; simpl.
  - intros He.
    apply (elem_of_run mongo _ (reports c now 0 dbs)) in He; try done;
      [|by intros []].
    apply reports_inv in He as (i & db & Hi & He).
    unfold report in He. apply elem_of_app in He as [He|He].
    { rewrite !elem_of_cons, elem_of_nil in He. by destruct He as [?|[?|[]]]. }
    destruct (outcome_of (c db)) eqn:Ho;
      rewrite ?elem_of_cons, ?elem_of_nil in He;
      repeat (destruct He as [He|He]; try done).
    injection He as -> ->. eauto 10.
  - rewrite elem_of_cons. intros [?|He]; [done|].
    by apply (proj1 (Forall_forall _ _) Hinit) in He.
Qed.

(** X12.  A snapshot is never empty and never holds a record identifier:
    whenever the run writes a file, it is the snapshot file of one of the
    databases of the list, and the rows written are the documents of the
    current collection of that database (the greatest of its collection
    names that start with [Net_Data_]), at least one, each without its
    top-level [_id] field. *)
Theorem snapshot_rows_have_no_id
    (mongo : nat -> connection) (now : nat -> string) (dbs : list string)
    (fs : gmap string (list document)) (path : string) (docs : list document) :
  ToCsv path docs ∈ trace (main_with mongo now dbs (State fs 0%nat [])).2 ->
  docs <> []
  /\ (forall d, d ∈ docs -> "_id" ∉ d.*1)
  /\ exists c i db names collection raw,
       init_outcome mongo = Ok (Self (Some c))
       /\ dbs !! i = Some db
       /\ path = snapshot_path db (now i)
       /\ list_collection_names (c db) = Some names
       /\ latest_of (net_data names) = Some collection
       /\ documents (c db) collection = Some raw
       /\ docs = map strip_id raw.
Proof.
  intros (c & i & db & coll & Hc & Hi & Ho & Hp)%to_csv_in_run.
  apply outcome_records in Ho as (Hne & names & raw & Hn & Hl & Hraw & ->).
  split; [done|]. split.
  - intros d [d0 [-> _]]%list_elem_of_fmap. apply strip_id_no_id.
  - by exists c, i, db, names, coll, raw.
Qed.

(** A store whose current collection of BACHV_BB_STOCKS holds two
    documents, each with an [_id]; the other database has no collection. *)
Definition identified : document :=
  [("_id", JBson "ObjectId"); ("symbol", JStr "FPT"); ("prediction", JInt 1)].

Definition identified_store : client :=
  fun database =>
    if String.eqb database "BACHV_BB_STOCKS"
    then Database (Some ["Net_Data_20241231"; "Net_Data_20250101"; "archive"])
                  (fun collection =>
                     if String.eqb collection "Net_Data_20250101"
                     then Some [identified;
                                [("symbol", JStr "VNM"); ("_id", JInt 7)]]
                     else Some [])
    else Database (Some []) (fun _ => Some []).

Lemma snapshot_rows_witness :
  "_id" ∈ identified.*1
  /\ "_id" ∉ [("symbol", JStr "FPT"); ("prediction", JInt 1)].*1.
Proof.
  destruct (snapshot_rows_have_no_id (fun _ => Connected identified_store)
              (fun _ => "20250102_030405") DATABASES ∅
              "Get_Data/BB/mongodb_data_20250102_030405.csv"
              [[("symbol", JStr "FPT"); ("prediction", JInt 1)];
               [("symbol", JStr "VNM")]])
    as (_ & H & _).
  - vm_compute. in_list.
  - split; [apply list_elem_of_here|]. apply H. apply list_elem_of_here.
Defined.

(** *** The files a run leaves *)

Lemma written_other c db time fs p :
  p <> snapshot_path db time -> written c db time fs !! p = fs !! p.
Proof.
  intros Hne. unfold written. destruct (outcome_of (c db)); try done.
  by rewrite lookup_insert_ne.
Qed.

Lemma files_after_untouched c now dbs : forall k fs p,
  (forall docs, ToCsv p docs ∉ reports c now k dbs) ->
  files_after c now k dbs fs !! p = fs !! p.
Proof.
  induction dbs as [|db rest IH]; intros k fs p H; [done|].
  cbn [files_after]. rewrite IH.
  - unfold written. destruct (outcome_of (c db)) as [| | | |coll docs] eqn:Ho;
      try done.
    destruct (decide (snapshot_path db (now k) = p)) as [<-|Hne];
      [|by rewrite lookup_insert_ne].
    destruct (H docs). cbn [reports]. apply elem_of_app. left.
    unfold report. rewrite Ho. simpl. in_list.
  - intros docs Hin. apply (H docs). cbn [reports]. apply elem_of_app. by right.
Qed.

(** X13.  A run only adds to the [Get_Data] tree: every file that was there
    before the run is there after it, and a file keeps its content unless
    the run wrote to that very path (same directory, same second). *)
Theorem refresh_only_adds_files
    (mongo : nat -> connection) (now : nat -> string) (dbs : list string)
    (fs : gmap string (list document)) (p : string) :
  let r := main_with mongo now dbs (State fs 0%nat []) in
  (is_Some (fs !! p) -> is_Some (files r.2 !! p))
  /\ ((forall docs, ToCsv p docs ∉ trace r.2) -> files r.2 !! p = fs !! p).
Proof.
  simpl. destruct (main_with_cases mongo now dbs fs) as [(c & Hc & ->)| ->]; simpl.
  - split; [apply files_after_mono|]. intros H. apply files_after_untouched.
    intros docs Hin. apply (H docs).
    rewrite elem_of_cons, !elem_of_app. auto.
  - done.
Qed.

(** *** The two scripts and the current collection *)

(** X14.  The two scripts choose the current collection alike: when the
    driver lists the collections, the method of [NetworkDataFetch] returns
    what [get_latest_collection] of the detector returns.  They part when
    the driver raises: the detector returns [None] and skips the database,
    the refresher raises [ApiPredictionException]. *)
Theorem scripts_agree_on_current_collection
    (c : client) (database : string) (s : state) :
  (Refresher.get_latest_collection (Self (Some c)) database s).1
  = match list_collection_names (c database) with
    | Some _ => Ok (Detector.get_latest_collection c database)
    | None => Raise ApiPredictionException
    end.
Proof.
  unfold Refresher.get_latest_collection, Detector.get_latest_collection.
  unfold try_except, bind, get_db, driver, ret, raise, log, emit, modify. simpl.
  destruct (list_collection_names (c database)) as [names|]; simpl; [|done].
  by destruct (net_data names).
Qed.

End RefresherMore.

(** ** More on the Supervisor *)

Module SupervisorMore.
Import Py Supervisor SupervisorFacts.

#[local] Arguments contains : simpl never.

(** *** The pid of a running server *)

(** The test of lines 40 to 42 on one process. *)
Definition qualifies (proc : proc_info) : bool :=
  is_python (p_name proc) && runs_api (p_cmdline proc).

Lemma first_api_spec procs :
  match first_api procs with
  | Some pid =>
      exists i proc,
        procs !! i = Some proc /\ qualifies proc = true /\ pid = p_pid proc
        /\ forall j other, (j < i)%nat -> procs !! j = Some other ->
                           qualifies other = false
  | None => forall proc, proc ∈ procs -> qualifies proc = false
  end.
Proof.
  induction procs as [|proc rest IH]; simpl.
  { by intros proc ?%elem_of_nil. }
  fold (qualifies proc). destruct (qualifies proc) eqn:Eq.
  - exists 0%nat, proc. repeat split; try done. intros j other Hj. lia.
  - destruct (first_api rest) as [pid|].
    + destruct IH as (i & p & Hi & Hq & Hpid & Hbefore).
      exists (Datatypes.S i), p. repeat split; try done.
      intros [|j] other Hj; simpl; [by intros [= <-]|].
      apply Hbefore. lia.
    + intros p [->|Hin]%elem_of_cons; [done | by apply IH].
Qed.

Section Generic.

Context {W : Type} (os : OS W).

Local Abbreviation state := (Supervisor.state (W := W)).

(** X15.  [get_api_server_pid] returns the pid of the first process of the
    listing whose name is exactly [python.exe] or [python] and whose second
    command-line argument holds the text API.py, and [None] when the
    listing has no such process or the listing raises an exception. *)
Theorem api_pid_is_first_match (s : state) (procs : list proc_info) :
  (forall proc,
     qualifies proc = true
     <-> (p_name proc = Some "python.exe" \/ p_name proc = Some "python")
         /\ exists arg0 arg1 rest,
              p_cmdline proc = Some (arg0 :: arg1 :: rest)
              /\ contains "API.py" arg1 = true)
  /\ ((process_iter W os (world s)).1 = Ok procs ->
      exists pid,
        (get_api_server_pid os s).1 = Ok pid
        /\ match pid with
           | Some n =>
               exists i proc,
                 procs !! i = Some proc /\ qualifies proc = true
                 /\ n = p_pid proc
                 /\ forall j other, (j < i)%nat -> procs !! j = Some other ->
                                    qualifies other = false
           | None => forall proc, proc ∈ procs -> qualifies proc = false
           end)
  /\ (forall e, (process_iter W os (world s)).1 = Raise e ->
                is_Exception e = true ->
                (get_api_server_pid os s).1 = Ok None).
Proof.
  split; [|split].
  - intros [pid name cmdline]. unfold qualifies, is_python, runs_api. simpl.
    rewrite andb_true_iff. split.
    + intros [Hn Hc]. split.
      * destruct name as [n|]; [|done].
        apply orb_true_iff in Hn as [Hn|Hn]; apply String.eqb_eq in Hn;
          subst n; auto.
      * destruct cmdline as [[|a0 [|a1 rest]]|]; try done. eauto.
    + intros [[->| ->] (a0 & a1 & rest & -> & Hc)]; by split.
  - intros Hp. unfold get_api_server_pid, try_except, bind, call, ret.
    destruct (process_iter W os (world s)) as [r w]. simpl in Hp. subst r.
    simpl. exists (first_api procs). split; [done|]. apply first_api_spec.
  - intros e Hp He. unfold get_api_server_pid, try_except, bind, call, ret.
    destruct (process_iter W os (world s)) as [r w]. simpl in Hp. subst r.
    simpl. by rewrite He.
Qed.

(** *** What the steps let through *)

Lemma try_except_Exception {St A} (body : M St A) (a : A) (s : St) e :
  (try_except body is_Exception (fun _ => ret a) s).1 = Raise e ->
  is_Exception e = false.
Proof.
  unfold try_except. destruct (body s) as [[b|e'] s']; [done|].
  destruct (is_Exception e') eqn:E; [done|]. by intros [= <-].
Qed.

(** A loop whose last pass never asks for another pass returns a value. *)
Lemma for_in_last {St J A} (body : J -> M St (flow A)) (last : J) :
  (forall s, (body last s).1 <> Ok Continue) ->
  forall items s, (for_in body (items ++ [last]) s).1 <> Ok None.
Proof.
  intros Hlast. induction items as [|i rest IH]; intros s; simpl.
  - specialize (Hlast s). by destruct (body last s) as [[[|a]|e] s'].
  - destruct (body i s) as [[[|a]|e] s']; [apply IH | done | done].
Qed.

Lemma retry_or_stop_last (s : state) :
  retry_or_stop os 2 s = (Ok (Return false), s).
Proof. done. Qed.

Lemma check_attempt_last (s : state) :
  (check_attempt os 2 s).1 <> Ok Continue.
Proof.
  unfold check_attempt, popen_process, communicate_process, kill_process,
    the_process.
  unfold try_except, bind, call, set_process, modify, get, ret, raise. simpl.
  destruct (popen W os _ (world s)) as [[p|e] w1]; simpl.
  - destruct (communicate W os p 60 w1) as [[out|e] w2]; simpl.
    + by repeat destruct (contains _ _).
    + destruct e; simpl; try done. by destruct (kill W os p w2) as [[[]|e] w3].
  - destruct e; simpl; try done. destruct (process s) as [p|]; simpl; [|done].
    by destruct (kill W os p w1) as [[[]|e] w3].
Qed.

Lemma fetch_attempt_last (s : state) :
  (fetch_attempt os 2 s).1 <> Ok Continue.
Proof.
  unfold fetch_attempt, popen_process, communicate_process, kill_process,
    the_process.
  unfold try_except, bind, call, set_process, modify, get, ret, raise. simpl.
  destruct (popen W os _ (world s)) as [[p|e] w1]; simpl.
  - destruct (communicate W os p 120 w1) as [[out|e] w2]; simpl.
    + by destruct (c_returncode out =? 0).
    + destruct e; simpl; try done. by destruct (kill W os p w2) as [[[]|e] w3].
  - destruct e; simpl; try done. destruct (process s) as [p|]; simpl; [|done].
    by destruct (kill W os p w1) as [[[]|e] w3].
Qed.

Lemma loop_not_None (body : nat -> M state (flow bool)) (s : state) :
  (forall s0, (body 2%nat s0).1 <> Ok Continue) ->
  ((set_process None ;;;
    try_except (for_in body (seq 0 max_retries)) is_Exception
               (fun _ => ret (Some false))) s).1 <> Ok None.
Proof.
  intros Hlast. unfold bind, set_process, modify, try_except.
  change (seq 0 max_retries) with ([0; 1] ++ [2])%nat.
  match goal with |- context [for_in body _ ?s0] =>
    pose proof (for_in_last body 2%nat Hlast [0; 1]%nat s0) as H;
    destruct (for_in body ([0; 1] ++ [2])%nat s0) as [[r|e] s'] end.
  - simpl in *. congruence.
  - by destruct (is_Exception e).
Qed.

(** X16.  The four steps of the Supervisor contain every [Exception]: the
    only exceptions they let through are those outside that class
    ([KeyboardInterrupt], [SystemExit]).  The check step and the refresh
    step, when they return, return [True] or [False]: their loop never
    runs out without a [return]. *)
Theorem supervisor_steps_contain_exceptions (s : state) :
  (forall e, (is_api_server_running os s).1 = Raise e -> is_Exception e = false)
  /\ (forall e, (get_api_server_pid os s).1 = Raise e -> is_Exception e = false)
  /\ (forall e, (check_mongodb_changes os s).1 = Raise e -> is_Exception e = false)
  /\ (forall e, (run_get_mongo_data os s).1 = Raise e -> is_Exception e = false)
  /\ (check_mongodb_changes os s).1 <> Ok None
  /\ (run_get_mongo_data os s).1 <> Ok None.
Proof.
  repeat split.
  - intros e. apply (try_except_Exception _ false).
  - intros e. apply (try_except_Exception _ None).
  - intros e. unfold check_mongodb_changes. unfold bind at 1. simpl.
    apply (try_except_Exception _ (Some false)).
  - intros e. unfold run_get_mongo_data. unfold bind at 1. simpl.
    apply (try_except_Exception _ (Some false)).
  - apply loop_not_None, check_attempt_last.
  - apply loop_not_None, fetch_attempt_last.
Qed.

(** *** The first conclusive answer *)

(** X17.  The check step stops at the first run of the detector whose
    output holds YES_CHANGED or NO_CHANGED: it makes no further attempt
    and no pause, and returns [True] exactly when the output holds
    YES_CHANGED, which is looked for first. *)
Theorem first_conclusive_answer_decides
    (s : state) (p : handle) (out : completed) (w1 w2 : W) :
  popen W os "check_mongo_changes.py" (world s) = (Ok p, w1) ->
  communicate W os p 60 w1 = (Ok out, w2) ->
  contains "YES_CHANGED" (c_stdout out) = true
  \/ contains "NO_CHANGED" (c_stdout out) = true ->
  check_mongodb_changes os s
  = (Ok (Some (contains "YES_CHANGED" (c_stdout out))),
     State w2 (api_process s) (Some p)
           (trace s ++ [Popen "check_mongo_changes.py"; Communicate p 60])).
Proof.
  intros Hp Hc Hout.
  unfold check_mongodb_changes, max_retries.
  unfold bind at 1. unfold set_process, modify, try_except. simpl.
  unfold check_attempt, popen_process, communicate_process, the_process.
  unfold try_except, bind, call, set_process, modify, get, ret. simpl.
  rewrite Hp. simpl. rewrite Hc. simpl. rewrite <- app_assoc. simpl.
  destruct (contains "YES_CHANGED" (c_stdout out)); [done|].
  destruct Hout as [? | ->]; done.
Qed.

(** *** A refresher that never succeeds *)

(** A run of the refresher that is no success: the wait timed out, or the
    exit status is not 0. *)
Definition unsuccessful (r : result completed) : Prop :=
  match r with
  | Raise TimeoutExpired => True
  | Raise _ => False
  | Ok out => c_returncode out <> 0
  end.

(** The events of the refresh step. *)
Definition refresh_event (e : event) : Prop :=
  match e with
  | Popen script => script = "get_mongo_data.py"
  | Communicate _ timeout => timeout = 120
  | Kill _ => True
  | Sleep seconds => seconds = 2
  | _ => False
  end.

Section Unsuccessful.

Hypothesis popen_returns :
  forall w, exists p, (popen W os "get_mongo_data.py" w).1 = Ok p.
Hypothesis communicate_unsuccessful :
  forall p w, unsuccessful (communicate W os p 120 w).1.
Hypothesis kill_returns : forall p w, (kill W os p w).1 = Ok tt.
Hypothesis sleep_returns : forall n w, (time_sleep W os n w).1 = Ok tt.

Lemma fetch_attempt_unsuccessful retry (s : state) :
  exists s' evs,
    fetch_attempt os retry s
    = (Ok (if (retry <? 2)%nat then Continue else Return false), s')
    /\ api_process s' = api_process s
    /\ trace s' = trace s ++ evs
    /\ Forall refresh_event evs
    /\ spawns_and_sleeps evs
       = Popen "get_mongo_data.py"
           :: (if (retry <? 2)%nat then [Sleep 2] else []).
Proof.
  unfold fetch_attempt, popen_process, communicate_process, kill_process,
    the_process.
  unfold try_except, bind, call, set_process, modify, get, ret. simpl.
  destruct (popen_returns (world s)) as [p Hp].
  destruct (popen W os "get_mongo_data.py" (world s)) as [r1 w1].
  simpl in Hp. subst r1. simpl.
  pose proof (communicate_unsuccessful p w1) as Hc.
  destruct (communicate W os p 120 w1) as [[out|e] w2]; simpl in Hc.
  - apply Z.eqb_neq in Hc. rewrite Hc.
    match goal with |- context [retry_or_stop os retry ?s1] =>
      destruct (retry_or_stop_spec os sleep_returns retry s1)
        as (s' & E & Ha & Ht) end.
    exists s'. eexists. rewrite E.
    split; [done|]. split; [done|].
    split; [rewrite Ht; simpl; by rewrite <- !app_assoc|].
    simpl. destruct (retry <? 2)%nat; split; try done; by repeat constructor.
  - destruct e; try done. simpl.
    pose proof (kill_returns p w2) as Hk.
    destruct (kill W os p w2) as [r3 w3]. simpl in Hk. subst r3.
    match goal with |- context [retry_or_stop os retry ?s1] =>
      destruct (retry_or_stop_spec os sleep_returns retry s1)
        as (s' & E & Ha & Ht) end.
    exists s'. eexists. rewrite E.
    split; [done|]. split; [done|].
    split; [rewrite Ht; simpl; by rewrite <- !app_assoc|].
    simpl. destruct (retry <? 2)%nat; split; try done; by repeat constructor.
Qed.

Lemma fetch_loop_unsuccessful (s : state) :
  exists s' evs,
    run_get_mongo_data os s = (Ok (Some false), s')
    /\ trace s' = trace s ++ evs
    /\ Forall refresh_event evs
    /\ spawns_and_sleeps evs
       = [Popen "get_mongo_data.py"; Sleep 2;
          Popen "get_mongo_data.py"; Sleep 2;
          Popen "get_mongo_data.py"]
    /\ api_process s' = api_process s.
Proof.
  unfold run_get_mongo_data, max_retries.
  unfold bind, set_process, modify, try_except. simpl.
  match goal with |- context [fetch_attempt os 0 ?s0] =>
    destruct (fetch_attempt_unsuccessful 0 s0)
      as (s1 & e1 & E1 & A1 & T1 & F1 & S1) end.
  rewrite E1. simpl.
  destruct (fetch_attempt_unsuccessful 1 s1) as (s2 & e2 & E2 & A2 & T2 & F2 & S2).
  rewrite E2. simpl.
  destruct (fetch_attempt_unsuccessful 2 s2) as (s3 & e3 & E3 & A3 & T3 & F3 & S3).
  rewrite E3. simpl.
  exists s3, (e1 ++ e2 ++ e3). split; [done|].
  split; [rewrite T3, T2, T1; simpl; by rewrite <- !app_assoc|].
  split; [by rewrite !Forall_app|].
  split; [by rewrite !spawns_and_sleeps_app, S1, S2, S3|].
  by rewrite A3, A2, A1.
Qed.

(** X18.  When no run of the refresher succeeds (each one times out or
    exits with a status other than 0), the refresh step starts the
    refresher exactly three times, pauses two seconds between two
    attempts, and returns [False]; it starts nothing else and leaves the
    handle of the server as it is. *)
Theorem refresh_gives_up_after_three_attempts (s : state) :
  exists s' evs,
    run_get_mongo_data os s = (Ok (Some false), s')
    /\ trace s' = trace s ++ evs
    /\ Forall refresh_event evs
    /\ spawns_and_sleeps evs
       = [Popen "get_mongo_data.py"; Sleep 2;
          Popen "get_mongo_data.py"; Sleep 2;
          Popen "get_mongo_data.py"]
    /\ api_process s' = api_process s.
Proof. apply fetch_loop_unsuccessful. Qed.

(** X19.  A start with no server on the port and no refresher run that
    succeeds ends in [sys.exit(1)]: the Supervisor probes the port, lists
    the processes, makes its three refresh attempts and exits with status
    1, without starting [API.py] and without entering its loop. *)
Theorem failed_startup_exits_with_one (w : W) (fuel : nat) :
  (is_api_server_running os (boot w)).1 = Ok false ->
  (forall w' e, (process_iter W os w').1 = Raise e -> is_Exception e = true) ->
  let r := main os fuel (boot w) in
  r.1 = Raise (SystemExit 1)
  /\ exit_status r.1 = 1
  /\ api_process r.2 = None
  /\ exists evs,
       trace r.2 = [ConnectEx; ProcessIter] ++ evs
       /\ Forall refresh_event evs
       /\ spawns_and_sleeps evs
          = [Popen "get_mongo_data.py"; Sleep 2;
             Popen "get_mongo_data.py"; Sleep 2;
             Popen "get_mongo_data.py"].
Proof.
  intros Hprobe Hiter.
  assert (exists s' evs,
    main os fuel (boot w) = (Raise (SystemExit 1), s')
    /\ api_process s' = None
    /\ trace s' = [ConnectEx; ProcessIter] ++ evs
    /\ Forall refresh_event evs
    /\ spawns_and_sleeps evs
       = [Popen "get_mongo_data.py"; Sleep 2;
          Popen "get_mongo_data.py"; Sleep 2;
          Popen "get_mongo_data.py"]) as (s' & evs & E & Ha & Ht & Hf & Hs);
    [|simpl; rewrite E; simpl; repeat (split; [done|]); by exists evs].
  unfold main. unfold bind at 1.
  assert (exists w1, is_api_server_running os (boot w)
                     = (Ok false, State w1 None None [ConnectEx])) as [w1 E1].
  { revert Hprobe. unfold is_api_server_running, try_except, bind, call, boot, ret.
    simpl. destruct (connect_ex W os w) as [[r|e] w1]; simpl.
    - intros [= ->]. eauto.
    - destruct (is_Exception e); [eauto | done]. }
  rewrite E1. unfold bind at 1.
  assert (exists pid w2, get_api_server_pid os (State w1 None None [ConnectEx])
                         = (Ok pid, State w2 None None [ConnectEx; ProcessIter]))
    as (pid & w2 & E2).
  { unfold get_api_server_pid, try_except, bind, call, ret. simpl.
    specialize (Hiter w1).
    destruct (process_iter W os w1) as [[procs|e] w2]; simpl in *; [eauto|].
    rewrite (Hiter e eq_refl). eauto. }
  rewrite E2. unfold bind at 1. unfold set_api_process, modify. simpl.
  unfold bind at 1. unfold bind at 1.
  match goal with |- context [run_get_mongo_data os ?s0] =>
    destruct (fetch_loop_unsuccessful s0) as (s' & evs & E & Ht & Hf & Hs & Ha) end.
  rewrite E. simpl. by exists s', evs.
Qed.

End Unsuccessful.

(** *** The end of the loop *)

Lemma bind_Ok {St A B} (m : M St A) (k : A -> M St B) s b s' :
  bind m k s = (Ok b, s') ->
  exists a s1, m s = (Ok a, s1) /\ k a s1 = (Ok b, s').
Proof. unfold bind. destruct (m s) as [[a|e] s1]; [eauto | done]. Qed.

Lemma terminate_api_Ok (s s' : state) :
  terminate_api os s = (Ok tt, s') ->
  api_process s' = api_process s
  /\ match api_process s with
     | Some p => trace s' = trace s ++ [Terminate p]
     | None => trace s' = trace s
     end.
Proof.
  unfold terminate_api, bind, get, call, ret.
  destruct (api_process s) as [p|] eqn:Ea.
  - destruct (terminate W os p (world s)) as [r w]. intros [= -> <-]. simpl.
    by rewrite Ea.
  - intros [= <-]. by rewrite Ea.
Qed.

Lemma while_true_Running fuel (s : state) r s' :
  (while_true os fuel ;;; ret Running) s = (Ok r, s') -> r = Running.
Proof.
  intros (a & s1 & _ & H)%bind_Ok. by injection H as <- _.
Qed.

(** X20.  [main] reaches its last line only through one of its two
    [except] clauses, and then the child it started has been asked to
    stop: when [main] ends while it holds a handle of the server, the last
    call it made is [terminate] on that handle. *)
Theorem shutdown_terminates_the_child (w : W) (fuel : nat) (s' : state) :
  main os fuel (boot w) = (Ok Ended, s') ->
  forall p, api_process s' = Some p -> exists t, trace s' = t ++ [Terminate p].
Proof.
  unfold main.
  intros (running & s1 & _ & H)%bind_Ok.
  apply bind_Ok in H as (pid & s2 & _ & H).
  apply bind_Ok in H as ([] & s3 & _ & H).
  apply bind_Ok in H as ([] & s4 & _ & H).
  unfold try_except2 in H.
  destruct ((while_true os fuel ;;; ret Running) s4) as [[r|e] s5] eqn:E.
  { apply while_true_Running in E. congruence. }
  assert ((terminate_api os ;;; ret Ended) s5 = (Ok Ended, s')) as Hend.
  { destruct (is_KeyboardInterrupt e); [done|]. by destruct (is_Exception e). }
  apply bind_Ok in Hend as ([] & s6 & Ht & Hr). injection Hr as ->.
  apply terminate_api_Ok in Ht as [Ha Ht].
  intros p Hp. rewrite Ha in Hp. rewrite Hp in Ht. eauto.
Qed.

End Generic.

(** An operating system on which the refresher succeeds, nothing listens
    on the port, and the first pause of the loop is interrupted. *)
Definition interrupted_os : OS unit := {|
  connect_ex := fun w => (Ok 111, w);
  process_iter := fun w => (Ok [], w);
  popen := fun _ w => (Ok 7%nat, w);
  communicate := fun _ _ w => (Ok (Completed "YES_CHANGED" "" 0), w);
  kill := fun _ w => (Ok tt, w);
  poll := fun _ w => (Ok None, w);
  terminate := fun _ w => (Ok tt, w);
  time_sleep := fun _ w => (Raise KeyboardInterrupt, w);
  check_interval := fun w => (Ok 7200, w)
|}.

(** An operating system on which nothing listens on the port and every
    child hangs. *)
Definition closed_os : OS unit := {|
  connect_ex := fun w => (Ok 111, w);
  process_iter := fun w => (Raise (Error "AccessDenied"), w);
  popen := fun _ w => (Ok 7%nat, w);
  communicate := fun _ _ w => (Raise TimeoutExpired, w);
  kill := fun _ w => (Ok tt, w);
  poll := fun _ w => (Ok None, w);
  terminate := fun _ w => (Ok tt, w);
  time_sleep := fun _ w => (Ok tt, w);
  check_interval := fun w => (Ok 7200, w)
|}.

Lemma first_conclusive_answer_witness :
  check_mongodb_changes interrupted_os (boot tt)
  = (Ok (Some true),
     State tt None (Some 7%nat)
           [Popen "check_mongo_changes.py"; Communicate 7%nat 60]).
Proof.
  apply (first_conclusive_answer_decides interrupted_os (boot tt) 7%nat
           (Completed "YES_CHANGED" "" 0) tt tt).
  - reflexivity.
  - reflexivity.
  - left. vm_compute. reflexivity.
Defined.

Lemma refresh_gives_up_witness :
  exists s' evs,
    run_get_mongo_data closed_os (boot tt) = (Ok (Some false), s')
    /\ trace s' = trace (boot tt) ++ evs
    /\ Forall refresh_event evs
    /\ spawns_and_sleeps evs
       = [Popen "get_mongo_data.py"; Sleep 2;
          Popen "get_mongo_data.py"; Sleep 2;
          Popen "get_mongo_data.py"]
    /\ api_process s' = api_process (boot tt).
Proof.
  apply (refresh_gives_up_after_three_attempts closed_os).
  - intros w. exists 7%nat. reflexivity.
  - intros p w. exact I.
  - intros p w. reflexivity.
  - intros n w. reflexivity.
Defined.

Lemma failed_startup_witness :
  (main closed_os 4 (boot tt)).1 = Raise (SystemExit 1)
  /\ exit_status (main closed_os 4 (boot tt)).1 = 1.
Proof.
  destruct (failed_startup_exits_with_one closed_os) with (w := tt) (fuel := 4%nat)
    as (H1 & H2 & _).
  - intros w. exists 7%nat. reflexivity.
  - intros p w. exact I.
  - intros p w. reflexivity.
  - intros n w. reflexivity.
  - reflexivity.
  - intros w' e [= <-]. reflexivity.
  - split; [exact H1 | exact H2].
Defined.

Lemma shutdown_witness :
  exists t, trace (main interrupted_os 1 (boot tt)).2 = t ++ [Terminate 7%nat].
Proof.
  apply (shutdown_terminates_the_child interrupted_os tt 1
           (main interrupted_os 1 (boot tt)).2).
  - reflexivity.
  - reflexivity.
Defined.

End SupervisorMore.

(** ** More on the three scripts on one machine *)

Module SystemMore.
Import Py Json Mongo Supervisor System.
Import DetectorFacts RefresherFacts SupervisorFacts SystemFacts.

#[local] Arguments contains : simpl never.

Local Abbreviation state := (Supervisor.state (W := machine)).




End SystemMore.

(** ** More on the choice of the latest snapshot *)

Module ApiMore.
Import Py Api ApiFacts.

#[local] Arguments path_join : simpl never.



(** X23.  [get_latest_csv] does not fall back on an older snapshot: when
    the matching entries that have the greatest creation time are not
    regular files or do not parse as CSV, the answer is status 500,
    whatever else the directory holds. *)
Theorem unreadable_newest_is_not_skipped
    (current_dir : string) (fs : tree) (data_type : string)
    (entries : list dirent) (e : dirent) :
  fs (upper data_type) = Some entries ->
  e ∈ glob entries ->
  (forall x, x ∈ glob entries -> d_ctime x <= d_ctime e) ->
  (forall x, x ∈ glob entries -> d_ctime x = d_ctime e ->
             d_isfile x && d_csv x = false) ->
  get_latest_csv current_dir fs data_type = HTTPException 500.
Proof.
  intros Hfs He Hle Hbad. unfold get_latest_csv.
  destruct (bool_decide (upper data_type ∈ ["BB"; "UD"])); simpl; [|done].
  rewrite Hfs.
  destruct (forallb d_stat (glob entries)); simpl; [|done].
  assert (glob entries <> []) as Hne by (intros E; rewrite E in He; inversion He).
  destruct (py_max_spec d_ctime (glob entries) Hne) as (m & -> & Hin & Hge).
  assert (d_isfile m && d_csv m = false) as Hm.
  { apply Hbad; [done|]. apply Z.le_antisymm; [by apply Hle | by apply Hge]. }
  destruct (d_isfile m); simpl in *; [|done]. by rewrite Hm.
Qed.

(** An older snapshot that reads well and a newer one that does not
    parse. *)
Definition damaged_listing : list dirent :=
  [ snap "mongodb_data_20250101_000000.csv" 1735689600;
    Dirent "mongodb_data_20250301_000000.csv" true 1740787200 true false ].

Lemma unreadable_newest_witness :
  get_latest_csv "/srv" (fun _ => Some damaged_listing) "ud" = HTTPException 500.
Proof.
  apply (unreadable_newest_is_not_skipped "/srv" (fun _ => Some damaged_listing)
           "ud" damaged_listing
           (Dirent "mongodb_data_20250301_000000.csv" true 1740787200 true false)).
  - reflexivity.
  - vm_compute. apply list_elem_of_further, list_elem_of_here.
  - intros x Hx. vm_compute in Hx.
    apply elem_of_cons in Hx as [->|Hx]; [vm_compute; discriminate|].
    apply list_elem_of_singleton in Hx as ->. vm_compute. discriminate.
  - intros x Hx. vm_compute in Hx.
    apply elem_of_cons in Hx as [->|Hx]; [vm_compute; discriminate|].
    apply list_elem_of_singleton in Hx as ->. reflexivity.
Defined.

End ApiMore.
